(** * news_forecaster: merge policy and change detection

    A shallow embedding of the snapshot merge ([news_aggregator.py]), the
    change classifier ([change_detector.py]), the first-run branch of the
    orchestrator ([run.py]) and the snapshot store ([storage.py], [models.py]),
    followed by the properties of the specification that concern them.

    Conventions.
    - A Python [str] is the list of its code points ([list N]).
    - A Python [int] is a [Z]; a Python [float] is an exact rational [Q]:
      rounding and the non-finite values (nan, inf) are not represented.
    - Code that can raise returns a [result]; the exception classes are the
      constructors of [exn], with the subclass relation of Python.
    - The external services (text generation, retrieval, clock) are
      arguments of the functions that call them. *)

From Stdlib Require Import ZArith QArith String Ascii DecimalString.
From Stdlib Require DecimalZ.
From stdpp Require Import base list gmap sets.

Local Open Scope Z_scope.
Local Open Scope list_scope.

(** ** Python strings *)

Abbreviation pystr := (list N).

(** The code points of an ASCII literal. *)
Definition u (s : string) : pystr :=
  List.map N_of_ascii (list_ascii_of_string s).

(** As [u], with every apostrophe of the literal standing for a double
    quote (code point 34); used to write JSON text. *)
Definition dq (s : string) : pystr :=
  List.map (fun c => if N.eqb c 39 then 34%N else c) (u s).

(** [str(n)] for a Python int. *)
Definition str_of_Z (z : Z) : pystr :=
  u (NilZero.string_of_int (Z.to_int z)).

(** [s[:n]] for a count [n] that is a non-negative literal. *)
Definition str_prefix (n : nat) (s : pystr) : pystr := take n s.

(** [sep.join(parts)] *)
Fixpoint join (sep : pystr) (parts : list pystr) : pystr :=
  match parts with
  | [] => []
  | [p] => p
  | p :: rest => p ++ sep ++ join sep rest
  end.

(** Python slicing [l[:n]] for an arbitrary int [n]: a negative bound counts
    from the end of the list. *)
Definition slice_to {A} (l : list A) (n : Z) : list A :=
  if Z.leb 0 n then take (Z.to_nat n) l
  else take (Z.to_nat (Z.of_nat (length l) + n)) l.

(** ** Exceptions and results *)

Inductive exn : Type :=
| JSONDecodeError (* json.JSONDecodeError, a subclass of ValueError *)
| ValueError
| TypeError
| AttributeError
| ValidationError (* pydantic's, a subclass of ValueError *)
| ServiceError.   (* any failure of an external service *)

Definition exn_eqb (a b : exn) : bool :=
  match a, b with
  | JSONDecodeError, JSONDecodeError | ValueError, ValueError
  | TypeError, TypeError | AttributeError, AttributeError
  | ValidationError, ValidationError | ServiceError, ServiceError => true
  | _, _ => false
  end.

(** [is_instance e c]: an exception of class [e] is caught by [except c]. *)
Definition is_instance (e c : exn) : bool :=
  match c, e with
  | ValueError, JSONDecodeError | ValueError, ValidationError => true
  | _, _ => exn_eqb e c
  end.

Inductive result (A : Type) : Type :=
| Ok (a : A)
| Raise (e : exn).
Arguments Ok {A} a.
Arguments Raise {A} e.

Definition bind {A B} (r : result A) (k : A -> result B) : result B :=
  match r with
  | Ok a => k a
  | Raise e => Raise e
  end.

Declare Scope result_scope.
Delimit Scope result_scope with result.
Notation "'let*' x ':=' r 'in' k" := (bind r (fun x => k))
  (at level 10, x name, r at level 100, k at level 200) : result_scope.
Local Open Scope result_scope.

Definition of_option {A} (e : exn) (o : option A) : result A :=
  match o with
  | Some a => Ok a
  | None => Raise e
  end.

(** ** Dates ([datetime.datetime]) *)

Record datetime : Type := mk_datetime {
  year : Z; month : Z; day : Z;
  hour : Z; minute : Z; second : Z; microsecond : Z;
  utcoffset : option Z (* minutes east of UTC; [None] for a naive value *)
}.

(** The last [w] decimal digits of [z], most significant first: a field of
    a date printed with leading zeros (%m, %d, ... and %Y). *)
Fixpoint fixed_digits (w : nat) (z : Z) : pystr :=
  match w with
  | O => []
  | S w' => Z.to_N (48 + (z / 10 ^ Z.of_nat w') mod 10) :: fixed_digits w' z
  end.

(** [dt.strftime(fmt)] for the directives the program uses
    (%Y %m %d %H %M %S); every other character is copied. *)
Fixpoint strftime (fmt : pystr) (dt : datetime) : pystr :=
  match fmt with
  | 37%N :: c :: rest =>
      (if N.eqb c 89 then fixed_digits 4 (year dt)
       else if N.eqb c 109 then fixed_digits 2 (month dt)
       else if N.eqb c 100 then fixed_digits 2 (day dt)
       else if N.eqb c 72 then fixed_digits 2 (hour dt)
       else if N.eqb c 77 then fixed_digits 2 (minute dt)
       else if N.eqb c 83 then fixed_digits 2 (second dt)
       else [37%N; c]) ++ strftime rest dt
  | c :: rest => c :: strftime rest dt
  | [] => []
  end.

Definition is_leap (y : Z) : bool :=
  (Z.eqb (y mod 4) 0 && negb (Z.eqb (y mod 100) 0)) || Z.eqb (y mod 400) 0.

Definition days_in_month (y m : Z) : Z :=
  if Z.eqb m 2 then (if is_leap y then 29 else 28)
  else if Z.eqb m 4 || Z.eqb m 6 || Z.eqb m 9 || Z.eqb m 11 then 30
  else 31.

Definition in_range (lo hi z : Z) : bool := Z.leb lo z && Z.leb z hi.

(** The values a [datetime] can hold. *)
Definition valid_datetime (d : datetime) : bool :=
  in_range 1 9999 (year d) && in_range 1 12 (month d)
  && in_range 1 (days_in_month (year d) (month d)) (day d)
  && in_range 0 23 (hour d) && in_range 0 59 (minute d)
  && in_range 0 59 (second d) && in_range 0 999999 (microsecond d)
  && match utcoffset d with
     | Some off => in_range (-1439) 1439 off
     | None => true
     end.

(** ** Data model ([models.py]) *)

(** The fields of [QuestionMetadata] read by the functions below. *)
Record QuestionMetadata : Type := mk_QuestionMetadata {
  q_question_id : Z;
  q_title : pystr;
  q_resolution_criteria : pystr
}.

Record NewsArticle : Type := mk_NewsArticle {
  url : pystr;
  title : pystr;
  summary : pystr;
  full_text : option pystr;
  published_date : option datetime;
  source : pystr;
  relevance_score : option Q
}.

Record NewsSnapshot : Type := mk_NewsSnapshot {
  question_id : Z;
  fetched_at : datetime;
  articles : list NewsArticle;
  search_query : pystr;
  snapshot_id : pystr
}.

(** [NewsSnapshot(question_id=..., fetched_at=..., articles=...,
    search_query=..., snapshot_id=sid)]: the field default is the empty
    string, and [model_post_init] replaces an empty identifier by the
    formatted fetch time. *)
Definition new_NewsSnapshot (qid : Z) (fetched : datetime)
    (arts : list NewsArticle) (query : pystr) (sid : pystr) : NewsSnapshot :=
  mk_NewsSnapshot qid fetched arts query
    (match sid with
     | [] => strftime (u "%Y-%m-%dT%H-%M-%S") fetched
     | _ => sid
     end).

(** The timestamps of an article and of a snapshot are values a
    [datetime] can hold. *)
Definition valid_article (a : NewsArticle) : bool :=
  match published_date a with
  | Some d => valid_datetime d
  | None => true
  end.

Definition valid_snapshot (s : NewsSnapshot) : bool :=
  valid_datetime (fetched_at s) && forallb valid_article (articles s).

(** ([cr_question_id] is the field [question_id] of the report.) *)
Record ChangeReport : Type := mk_ChangeReport {
  cr_question_id : Z;
  detected_at : datetime;
  previous_snapshot_id : pystr;
  current_snapshot_id : pystr;
  change_summary : pystr;
  significance_score : Q;
  is_significant : bool;
  new_articles : list NewsArticle
}.

Record NewsUpdate : Type := mk_NewsUpdate {
  question : QuestionMetadata;
  news_snapshot : NewsSnapshot;
  change_report : option ChangeReport
}.

(** ** Article store merge ([news_aggregator.py]) *)

(** [{a.url for a in articles}] *)
Definition url_set (arts : list NewsArticle) : gset pystr :=
  list_to_set (url <$> arts).

(** [[a for a in articles if a.url not in urls]] *)
Definition not_in_urls (urls : gset pystr) (arts : list NewsArticle)
    : list NewsArticle :=
  filter (fun a => url a ∉ urls) arts.

Definition default_max_articles : Z := 50.

Definition merge_with_previous (new_snapshot : NewsSnapshot)
    (previous_snapshot : option NewsSnapshot) (max_articles : Z)
    : NewsSnapshot :=
  match previous_snapshot with
  | None => new_snapshot
  | Some previous =>
      let existing_urls := url_set (articles previous) in
      let new_arts := not_in_urls existing_urls (articles new_snapshot) in
      let combined := new_arts ++ articles previous in
      let combined := slice_to combined max_articles in
      new_NewsSnapshot (question_id new_snapshot) (fetched_at new_snapshot)
        combined (search_query new_snapshot) []
  end.

Definition get_new_articles (current_snapshot : NewsSnapshot)
    (previous_snapshot : option NewsSnapshot) : list NewsArticle :=
  match previous_snapshot with
  | None => articles current_snapshot
  | Some previous =>
      let previous_urls := url_set (articles previous) in
      not_in_urls previous_urls (articles current_snapshot)
  end.

(** ** The values of [json.loads] *)

Set Warnings "-register-all".

Inductive pyval : Type :=
| PyNone
| PyBool (b : bool)
| PyInt (z : Z)
| PyFloat (q : Q)
| PyStr (s : pystr)
| PyList (l : list pyval)
| PyDict (d : list (pystr * pyval)).

(** [d[k] = v]: a key keeps the position of its first insertion. *)
Fixpoint dict_set (k : pystr) (v : pyval) (d : list (pystr * pyval))
    : list (pystr * pyval) :=
  match d with
  | [] => [(k, v)]
  | (k', v') :: rest =>
      if bool_decide (k = k') then (k, v) :: rest
      else (k', v') :: dict_set k v rest
  end.

Fixpoint dict_lookup (k : pystr) (d : list (pystr * pyval)) : option pyval :=
  match d with
  | [] => None
  | (k', v) :: rest => if bool_decide (k = k') then Some v else dict_lookup k rest
  end.

(** [obj.get(key, default)]: only a dict has the method. *)
Definition py_get (obj : pyval) (key : pystr) (default : pyval)
    : result pyval :=
  match obj with
  | PyDict d => Ok (match dict_lookup key d with Some v => v | None => default end)
  | _ => Raise AttributeError
  end.

(** Truth value of an object. *)
Definition truthy (v : pyval) : bool :=
  match v with
  | PyNone => false
  | PyBool b => b
  | PyInt z => negb (Z.eqb z 0)
  | PyFloat q => negb (Qeq_bool q 0)
  | PyStr s => match s with [] => false | _ => true end
  | PyList l => match l with [] => false | _ => true end
  | PyDict d => match d with [] => false | _ => true end
  end.

(** [a or b] *)
Definition py_or (a b : pyval) : pyval := if truthy a then a else b.

(** ** [json.loads] *)

Definition is_json_ws (c : N) : bool :=
  N.eqb c 32 || N.eqb c 9 || N.eqb c 10 || N.eqb c 13.

Definition is_digit (c : N) : bool := N.leb 48 c && N.leb c 57.

Fixpoint skip_ws (s : pystr) : pystr :=
  match s with
  | c :: rest => if is_json_ws c then skip_ws rest else s
  | [] => []
  end.

(** The longest prefix of decimal digits, and what follows it. *)
Fixpoint span_digits (s : pystr) : pystr * pystr :=
  match s with
  | c :: rest =>
      if is_digit c then let '(ds, r) := span_digits rest in (c :: ds, r)
      else ([], s)
  | [] => ([], [])
  end.

Definition digits_to_Z (ds : pystr) : Z :=
  fold_left (fun acc c => 10 * acc + (Z.of_N c - 48)) ds 0.

(** [m * 10^e] as a float. *)
Definition decimal (m e : Z) : Q := Qred (inject_Z m * Qpower (10 # 1) e).

Definition signed (neg : bool) (z : Z) : Z := if neg then - z else z.

(** The optional exponent of a number: its value and the rest, or no
    exponent at all when no digit follows. *)
Definition scan_exponent (s : pystr) : option (Z * pystr) :=
  match s with
  | c :: rest =>
      if N.eqb c 101 || N.eqb c 69 then
        let '(neg, rest') :=
          match rest with
          | sg :: r => if N.eqb sg 45 then (true, r)
                       else if N.eqb sg 43 then (false, r) else (false, rest)
          | [] => (false, rest)
          end in
        match span_digits rest' with
        | ([], _) => None
        | (ds, r) => Some (signed neg (digits_to_Z ds), r)
        end
      else None
  | [] => None
  end.

(** A number: an int when it has neither fraction nor exponent. *)
Definition scan_number (s : pystr) : option (pyval * pystr) :=
  let '(neg, s1) :=
    match s with
    | c :: r => if N.eqb c 45 then (true, r) else (false, s)
    | [] => (false, s)
    end in
  let int_part :=
    match s1 with
    | c :: r =>
        if N.eqb c 48 then Some ([c], r)
        else if is_digit c then Some (span_digits s1)
        else None
    | [] => None
    end in
  match int_part with
  | None => None
  | Some (ids, s2) =>
      let '(fds, s3) :=
        match s2 with
        | dot :: d :: r =>
            if N.eqb dot 46 && is_digit d then span_digits (d :: r)
            else ([], s2)
        | _ => ([], s2)
        end in
      let mantissa := signed neg (digits_to_Z (ids ++ fds)) in
      match scan_exponent s3, fds with
      | Some (e, s4), _ =>
          Some (PyFloat (decimal mantissa (e - Z.of_nat (length fds))), s4)
      | None, _ :: _ =>
          Some (PyFloat (decimal mantissa (- Z.of_nat (length fds))), s3)
      | None, [] => Some (PyInt mantissa, s3)
      end
  end.

Definition hex_val (c : N) : option N :=
  if is_digit c then Some (c - 48)%N
  else if N.leb 97 c && N.leb c 102 then Some (c - 87)%N
  else if N.leb 65 c && N.leb c 70 then Some (c - 55)%N
  else None.

Definition hex4 (a b c d : N) : option N :=
  match hex_val a, hex_val b, hex_val c, hex_val d with
  | Some x, Some y, Some z, Some w => Some (((x * 16 + y) * 16 + z) * 16 + w)%N
  | _, _, _, _ => None
  end.

Definition is_high_surrogate (c : N) : bool := N.leb 55296 c && N.leb c 56319.
Definition is_low_surrogate (c : N) : bool := N.leb 56320 c && N.leb c 57343.
Definition join_surrogates (hi lo : N) : N :=
  (65536 + (hi - 55296) * 1024 + (lo - 56320))%N.

(** The character a one-letter escape stands for. *)
Definition unescape (c : N) : option N :=
  if N.eqb c 34 then Some 34%N
  else if N.eqb c 92 then Some 92%N
  else if N.eqb c 47 then Some 47%N
  else if N.eqb c 98 then Some 8%N
  else if N.eqb c 102 then Some 12%N
  else if N.eqb c 110 then Some 10%N
  else if N.eqb c 114 then Some 13%N
  else if N.eqb c 116 then Some 9%N
  else None.

(** The body of a string literal, after its opening quote (strict mode:
    a raw control character is an error). *)
Fixpoint scanstring (s acc : pystr) : option (pystr * pystr) :=
  match s with
  | [] => None
  | c :: r =>
      if N.eqb c 34 then Some (rev acc, r)
      else if N.eqb c 92 then
        match r with
        | e :: r1 =>
            if N.eqb e 117 then
              match r1 with
              | h1 :: h2 :: h3 :: h4 :: r2 =>
                  match hex4 h1 h2 h3 h4 with
                  | None => None
                  | Some cp =>
                      if is_high_surrogate cp then
                        match r2 with
                        | b :: uu :: l1 :: l2 :: l3 :: l4 :: r3 =>
                            if N.eqb b 92 && N.eqb uu 117 then
                              match hex4 l1 l2 l3 l4 with
                              | None => None
                              | Some lo =>
                                  if is_low_surrogate lo
                                  then scanstring r3 (join_surrogates cp lo :: acc)
                                  else scanstring r2 (cp :: acc)
                              end
                            else scanstring r2 (cp :: acc)
                        | _ => scanstring r2 (cp :: acc)
                        end
                      else scanstring r2 (cp :: acc)
                  end
              | _ => None
              end
            else
              match unescape e with
              | Some ch => scanstring r1 (ch :: acc)
              | None => None
              end
        | [] => None
        end
      else if N.ltb c 32 then None
      else scanstring r (c :: acc)
  end.

(** [s.startswith(p)], returning what follows the prefix. *)
Fixpoint after_prefix (p s : pystr) : option pystr :=
  match p, s with
  | [], _ => Some s
  | a :: p', b :: s' => if N.eqb a b then after_prefix p' s' else None
  | _ :: _, [] => None
  end.

Section Containers.
(** The scanner for one value, used for the members. *)
Variable scan : pystr -> option (pyval * pystr).

(** The members of an object from its first key on; [n] bounds the
    number of members. *)
Fixpoint scan_members (n : nat) (s : pystr) (acc : list (pystr * pyval))
    : option (pyval * pystr) :=
  match n, s with
  | S n', c :: r =>
      if N.eqb c 34 then
        match scanstring r [] with
        | None => None
        | Some (key, r1) =>
            match skip_ws r1 with
            | colon :: r2 =>
                if N.eqb colon 58 then
                  match scan (skip_ws r2) with
                  | None => None
                  | Some (v, r3) =>
                      let acc' := dict_set key v acc in
                      match skip_ws r3 with
                      | c' :: r4 =>
                          if N.eqb c' 125 then Some (PyDict acc', r4)
                          else if N.eqb c' 44
                          then scan_members n' (skip_ws r4) acc'
                          else None
                      | [] => None
                      end
                  end
                else None
            | [] => None
            end
        end
      else None
  | _, _ => None
  end.

(** What follows the opening brace. *)
Definition scan_object (s : pystr) : option (pyval * pystr) :=
  match skip_ws s with
  | c :: r =>
      if N.eqb c 125 then Some (PyDict [], r)
      else scan_members (length (c :: r)) (c :: r) []
  | [] => None
  end.

(** The elements of an array from its first element on. *)
Fixpoint scan_elements (n : nat) (s : pystr) (acc : list pyval)
    : option (pyval * pystr) :=
  match n with
  | S n' =>
      match scan s with
      | None => None
      | Some (v, r) =>
          match skip_ws r with
          | c :: r1 =>
              if N.eqb c 93 then Some (PyList (rev (v :: acc)), r1)
              else if N.eqb c 44 then scan_elements n' (skip_ws r1) (v :: acc)
              else None
          | [] => None
          end
      end
  | O => None
  end.

(** What follows the opening bracket. *)
Definition scan_array (s : pystr) : option (pyval * pystr) :=
  match skip_ws s with
  | c :: r =>
      if N.eqb c 93 then Some (PyList [], r)
      else scan_elements (length (c :: r)) (c :: r) []
  | [] => None
  end.
End Containers.

(** One JSON value at the head of [s]; [depth] bounds the nesting. The
    constants NaN, Infinity and -Infinity, which the decoder accepts as an
    extension, have no value in this model and are not recognised. *)
Fixpoint scan_once (depth : nat) (s : pystr) : option (pyval * pystr) :=
  match depth, s with
  | S depth', c :: r =>
      if N.eqb c 34 then
        match scanstring r [] with
        | Some (str, r') => Some (PyStr str, r')
        | None => None
        end
      else if N.eqb c 123 then scan_object (scan_once depth') r
      else if N.eqb c 91 then scan_array (scan_once depth') r
      else
        match after_prefix (u "null") s, after_prefix (u "true") s,
              after_prefix (u "false") s with
        | Some r', _, _ => Some (PyNone, r')
        | _, Some r', _ => Some (PyBool true, r')
        | _, _, Some r' => Some (PyBool false, r')
        | None, None, None => scan_number s
        end
  | _, _ => None
  end.

(** [json.loads(text)]; every failure is a [JSONDecodeError]. The depth
    given to the scanner exceeds the length of the text, so that it never
    runs out ([json_loads_depth] below); the recursion limit of the
    interpreter is not modelled. *)
Definition json_loads (text : pystr) : result pyval :=
  match text with
  | 65279%N :: _ => Raise JSONDecodeError
  | _ =>
      match scan_once (S (length text)) (skip_ws text) with
      | Some (v, rest) =>
          match skip_ws rest with
          | [] => Ok v
          | _ :: _ => Raise JSONDecodeError
          end
      | None => Raise JSONDecodeError
      end
  end.

(** A scanner consumes when what it leaves is shorter than its input. *)
Definition consumes (scan : pystr -> option (pyval * pystr)) : Prop :=
  forall s v r, (scan s = Some (v, r) -> length r < length s)%nat.

(** ** Regular expressions ([re.search])

    A backtracking matcher for the constructs of the two patterns of
    [_parse_json_response]; alternatives are tried in the order of the
    [re] module (greedy: longest first, lazy: shortest first). *)

Inductive regex : Type :=
| RLit (s : pystr)            (* the characters of [s] *)
| ROpt (r : regex)            (* (?:r)? *)
| RStar (cls : N -> bool)     (* [cls]* , greedy *)
| RStarLazy (cls : N -> bool) (* [cls]*? , lazy *)
| RSeq (r1 r2 : regex).

Section Matcher.
Context {A : Type}.

Fixpoint star_greedy (cls : N -> bool) (k : pystr -> option A) (s : pystr)
    : option A :=
  match s with
  | c :: rest =>
      if cls c then
        match star_greedy cls k rest with
        | Some a => Some a
        | None => k s
        end
      else k s
  | [] => k []
  end.

Fixpoint star_lazy (cls : N -> bool) (k : pystr -> option A) (s : pystr)
    : option A :=
  match k s with
  | Some a => Some a
  | None =>
      match s with
      | c :: rest => if cls c then star_lazy cls k rest else None
      | [] => None
      end
  end.

(** [rmatch r s k]: match [r] at the head of [s] and continue with [k] on
    what is left; a failure of [k] makes the matcher try its next
    alternative. *)
Fixpoint rmatch (r : regex) (s : pystr) (k : pystr -> option A) : option A :=
  match r with
  | RLit l => match after_prefix l s with Some rest => k rest | None => None end
  | ROpt r' =>
      match rmatch r' s k with
      | Some a => Some a
      | None => k s
      end
  | RStar cls => star_greedy cls k s
  | RStarLazy cls => star_lazy cls k s
  | RSeq r1 r2 => rmatch r1 s (fun s' => rmatch r2 s' k)
  end.
End Matcher.

(** A pattern [pre(grp)post] with one capturing group. *)
Record pattern : Type := mk_pattern { pre : regex; grp : regex; post : regex }.

(** The text captured by the group when the pattern matches at the head. *)
Definition match_here (p : pattern) (s : pystr) : option pystr :=
  rmatch (pre p) s (fun s1 =>
    rmatch (grp p) s1 (fun s2 =>
      rmatch (post p) s2 (fun _ => Some (take (length s1 - length s2) s1)))).

(** [re.search(p, s).group(1)]: the leftmost match. *)
Fixpoint re_search (p : pattern) (s : pystr) : option pystr :=
  match match_here p s with
  | Some g => Some g
  | None =>
      match s with
      | _ :: rest => re_search p rest
      | [] => None
      end
  end.

(** [\s] on a str pattern: the characters for which [str.isspace] holds. *)
Definition is_space (c : N) : bool :=
  (N.leb 9 c && N.leb c 13) || (N.leb 28 c && N.leb c 32)
  || N.eqb c 133 || N.eqb c 160 || N.eqb c 5760
  || (N.leb 8192 c && N.leb c 8202) || N.eqb c 8232 || N.eqb c 8233
  || N.eqb c 8239 || N.eqb c 8287 || N.eqb c 12288.

(** [.] under [re.DOTALL] *)
Definition any_char (c : N) : bool := true.

(** [[^{}]] *)
Definition not_brace (c : N) : bool := negb (N.eqb c 123 || N.eqb c 125).

Definition backticks : pystr := [96; 96; 96]%N.

(** r"```(?:json)?\s*(\{.*?\})\s*```" *)
Definition fence_pattern : pattern :=
  mk_pattern
    (RSeq (RLit backticks) (RSeq (ROpt (RLit (u "json"))) (RStar is_space)))
    (RSeq (RLit (u "{")) (RSeq (RStarLazy any_char) (RLit (u "}"))))
    (RSeq (RStar is_space) (RLit backticks)).

(** r"\{[^{}]*\}", the whole match being the group *)
Definition brace_pattern : pattern :=
  mk_pattern (RLit [])
    (RSeq (RLit (u "{")) (RSeq (RStar not_brace) (RLit (u "}"))))
    (RLit []).

(** ** Change classifier ([change_detector.py]) *)

Record ChangeDetector : Type := mk_ChangeDetector {
  model : pystr;
  significance_threshold : Q
}.

Definition default_significance_threshold : Q := 3 # 10.

Definition _parse_json_response (text : pystr) : result pyval :=
  match json_loads text with
  | Ok v => Ok v
  | Raise e =>
      if is_instance e JSONDecodeError then
        match re_search fence_pattern text with
        | Some g => json_loads g
        | None =>
            match re_search brace_pattern text with
            | Some g => json_loads g
            | None => Raise ValueError
            end
        end
      else Raise e
  end.

(** *** [float(x)] *)

(** A run of digits in which single underscores may separate digits. *)
Fixpoint span_digitpart (s : pystr) : pystr * pystr :=
  match s with
  | c :: rest =>
      if is_digit c then
        let '(ds, r) :=
          match rest with
          | 95%N :: rest' =>
              match rest' with
              | d :: _ => if is_digit d then span_digitpart rest' else ([], rest)
              | [] => ([], rest)
              end
          | _ => span_digitpart rest
          end in
        (c :: ds, r)
      else ([], s)
  | [] => ([], [])
  end.

Fixpoint lstrip (s : pystr) : pystr :=
  match s with
  | c :: rest => if is_space c then lstrip rest else s
  | [] => []
  end.

Definition strip (s : pystr) : pystr := rev (lstrip (rev (lstrip s))).

Definition take_sign (s : pystr) : bool * pystr :=
  match s with
  | c :: r => if N.eqb c 45 then (true, r)
              else if N.eqb c 43 then (false, r) else (false, s)
  | [] => (false, s)
  end.

(** [float(s)] for a str: surrounding blanks, sign, decimal digits with an
    optional point and exponent. The spellings of the non-finite values are
    not recognised. *)
Definition float_of_str (s : pystr) : option Q :=
  let '(neg, s0) := take_sign (strip s) in
  let '(ids, s1) := span_digitpart s0 in
  let '(fds, s2) :=
    match s1 with
    | c :: r => if N.eqb c 46 then span_digitpart r else ([], s1)
    | [] => ([], s1)
    end in
  match ids ++ fds with
  | [] => None
  | ds =>
      let m := signed neg (digits_to_Z ds) in
      let nf := Z.of_nat (length fds) in
      match s2 with
      | [] => Some (decimal m (- nf))
      | c :: r =>
          if N.eqb c 101 || N.eqb c 69 then
            let '(eneg, r1) := take_sign r in
            match span_digitpart r1 with
            | ((_ :: _) as eds, []) =>
                Some (decimal m (signed eneg (digits_to_Z eds) - nf))
            | _ => None
            end
          else None
      end
  end.

Definition py_float (v : pyval) : result Q :=
  match v with
  | PyFloat q => Ok q
  | PyInt z => Ok (inject_Z z)
  | PyBool b => Ok (if b then 1%Q else 0%Q)
  | PyStr s => of_option ValueError (float_of_str s)
  | PyNone | PyList _ | PyDict _ => Raise TypeError
  end.

(** [a > b] on floats *)
Definition Qgtb (a b : Q) : bool := negb (Qle_bool a b).

(** *** Validation of the [ChangeReport] fields (pydantic, lax mode) *)

Definition lower (s : pystr) : pystr :=
  List.map (fun c => if N.leb 65 c && N.leb c 90 then (c + 32)%N else c) s.

Definition str_in (s : pystr) (l : list string) : bool :=
  existsb (fun x => bool_decide (s = u x)) l.

(** A [bool] field accepts a bool, the numbers 0 and 1, and the strings
    that spell a truth value. *)
Definition validate_bool (v : pyval) : result bool :=
  match v with
  | PyBool b => Ok b
  | PyInt z => if Z.eqb z 0 then Ok false
               else if Z.eqb z 1 then Ok true else Raise ValidationError
  | PyFloat q => if Qeq_bool q 0 then Ok false
                 else if Qeq_bool q 1 then Ok true else Raise ValidationError
  | PyStr s =>
      if str_in (lower s) ["0"; "off"; "f"; "false"; "n"; "no"]%string
      then Ok false
      else if str_in (lower s) ["1"; "on"; "t"; "true"; "y"; "yes"]%string
      then Ok true
      else Raise ValidationError
  | PyNone | PyList _ | PyDict _ => Raise ValidationError
  end.

(** A [str] field accepts a str only. *)
Definition validate_str (v : pyval) : result pystr :=
  match v with
  | PyStr s => Ok s
  | _ => Raise ValidationError
  end.

(** [Field(ge=0.0, le=1.0)] *)
Definition validate_unit_interval (q : Q) : result Q :=
  if Qle_bool 0 q && Qle_bool q 1 then Ok q else Raise ValidationError.

(** [ChangeReport(question_id=..., ..., new_articles=...)]: the constructor
    validates its arguments against the declared field types. The arguments
    that the callers compute from untyped data are [pyval]s;
    [previous_snapshot_id] is [None] or a str. *)
Definition new_ChangeReport (qid : Z) (detected : datetime)
    (prev_id : pyval) (cur_id : pystr) (summary_text : pyval)
    (score : Q) (significant : pyval) (arts : list NewsArticle)
    : result ChangeReport :=
  let* prev := validate_str prev_id in
  let* text := validate_str summary_text in
  let* sc := validate_unit_interval score in
  let* flag := validate_bool significant in
  Ok (mk_ChangeReport qid detected prev cur_id text sc flag arts).

(** *** The prompt *)

Definition nl : pystr := [10%N].

Definition pub_date_text (a : NewsArticle) : pystr :=
  match published_date a with
  | Some d => strftime (u "%Y-%m-%d") d
  | None => u "Unknown"
  end.

Definition _summarize_articles (arts : list NewsArticle) : pystr :=
  match arts with
  | [] => u "No previous articles."
  | _ =>
      join nl
        (List.map
           (fun a =>
              u "- [" ++ pub_date_text a ++ u "] " ++ title a ++
              match summary a with
              | [] => []
              | s => u ": " ++ str_prefix 150 s ++ u "..."
              end)
           (take 10 arts))
  end.

(** One entry of [_format_articles], numbered from 1. *)
Definition format_article (i : nat) (a : NewsArticle) : pystr :=
  u "[" ++ str_of_Z (Z.of_nat i) ++ u "] " ++ title a ++ nl ++
  u "    Source: " ++ source a ++ u ", Date: " ++ pub_date_text a ++ nl ++
  match summary a, full_text a with
  | (_ :: _) as s, _ => u "    Summary: " ++ str_prefix 300 s ++ nl
  | [], Some ((_ :: _) as t) => u "    Content: " ++ str_prefix 300 t ++ u "..." ++ nl
  | [], _ => []
  end.

Definition _format_articles (arts : list NewsArticle) : pystr :=
  match arts with
  | [] => u "No new articles."
  | _ => join nl (imap (fun i a => format_article (S i) a) arts)
  end.

(** [CHANGE_DETECTION_PROMPT.format(...)] *)
Definition change_detection_prompt (question_title resolution_criteria
    previous_date previous_summary new_articles_text : pystr) : pystr :=
  join nl
    [ [];
      u "You are analyzing news changes for a forecasting question.";
      [];
      u "Question: " ++ question_title;
      u "Resolution Criteria: " ++ resolution_criteria;
      [];
      u "Previous news summary (from " ++ previous_date ++ u "):";
      previous_summary;
      [];
      u "New articles since then:";
      new_articles_text;
      [];
      u "Analyze whether these new articles represent a SIGNIFICANT change that would:";
      u "1. Materially affect the probability of the question's outcome";
      u "2. Introduce new key information that wasn't previously available";
      u "3. Change the status quo assumption";
      [];
      u "Respond with ONLY a JSON object in this exact format (no other text):";
      u "{";
      dq "    'SIGNIFICANCE_SCORE': <number from 0.0 to 1.0>,";
      dq "    'IS_SIGNIFICANT': <true if score > 0.3, false otherwise>,";
      dq "    'CHANGE_SUMMARY': '<2-3 sentence summary of what changed and why it matters>'";
      u "}";
      [] ].

(** *** [detect_changes] *)

(** The text-generation service: from the model name and the prompt to the
    content of the first choice ([None] when the reply has no content), or
    an exception. *)
Definition text_service : Type := pystr -> pystr -> result (option pystr).

(** The verdict substituted for a reply that cannot be parsed. *)
Definition fallback_result (n : nat) : pyval :=
  PyDict
    [ (u "SIGNIFICANCE_SCORE", PyFloat (1 # 2));
      (u "IS_SIGNIFICANT", PyBool true);
      (u "CHANGE_SUMMARY",
       PyStr (u "New articles found but analysis failed: " ++
              str_of_Z (Z.of_nat n) ++ u " new article(s)")) ].

(** The [try] block around [_parse_json_response]. *)
Definition parse_or_fallback (result_text : pystr) (n : nat) : result pyval :=
  match _parse_json_response result_text with
  | Ok v => Ok v
  | Raise e =>
      if is_instance e JSONDecodeError || is_instance e ValueError
      then Ok (fallback_result n)
      else Raise e
  end.

(** The statements after the [try] block. *)
Definition build_report (self : ChangeDetector) (now : datetime)
    (qid : Z) (previous_snapshot current_snapshot : NewsSnapshot)
    (new_arts : list NewsArticle) (res : pyval) : result ChangeReport :=
  let* raw_score := py_get res (u "SIGNIFICANCE_SCORE") (PyFloat 0) in
  let* score := py_float raw_score in
  let* flag := py_get res (u "IS_SIGNIFICANT") (PyBool false) in
  let significant :=
    py_or flag (PyBool (Qgtb score (significance_threshold self))) in
  let* text := py_get res (u "CHANGE_SUMMARY") (PyStr (u "No summary available.")) in
  new_ChangeReport qid now
    (PyStr (snapshot_id previous_snapshot)) (snapshot_id current_snapshot)
    text score significant new_arts.

(** The prompt of [detect_changes] for the genuinely new articles
    [new_arts]. *)
Definition build_prompt (q : QuestionMetadata) (previous_snapshot : NewsSnapshot)
    (new_arts : list NewsArticle) : pystr :=
  let previous_summary :=
    _summarize_articles (take 10 (articles previous_snapshot)) in
  let new_articles_text := _format_articles (take 10 new_arts) in
  change_detection_prompt (q_title q) (q_resolution_criteria q)
    (strftime (u "%Y-%m-%d %H:%M") (fetched_at previous_snapshot))
    previous_summary new_articles_text.

(** [response.choices[0].message.content or "{}"] *)
Definition reply_text (content : option pystr) : pystr :=
  match content with
  | Some ((_ :: _) as text) => text
  | _ => u "{}"
  end.

(** [detect_changes] returns its result together with the list of prompts
    it submitted to the text-generation service. [now] is the value of
    [datetime.now(timezone.utc)]. *)
Definition detect_changes (self : ChangeDetector) (llm : text_service)
    (now : datetime) (q : QuestionMetadata)
    (previous_snapshot current_snapshot : NewsSnapshot)
    : result ChangeReport * list pystr :=
  let previous_urls := url_set (articles previous_snapshot) in
  let new_arts := not_in_urls previous_urls (articles current_snapshot) in
  match new_arts with
  | [] =>
      (new_ChangeReport (q_question_id q) now
         (PyStr (snapshot_id previous_snapshot)) (snapshot_id current_snapshot)
         (PyStr (u "No new articles found since last check."))
         0 (PyBool false) [],
       [])
  | _ :: _ =>
      let prompt := build_prompt q previous_snapshot new_arts in
      (let* content := llm (model self) prompt in
       let result_text := reply_text content in
       let* res := parse_or_fallback result_text (length new_arts) in
       build_report self now (q_question_id q) previous_snapshot
         current_snapshot new_arts res,
       [prompt])
  end.

(** ** Persistence ([storage.py])

    A stored file is represented by the JSON document it holds: the text
    written by [model_dump_json] and read back by [json.load] is not
    modelled below the level of that document. *)

(** *** Timestamps in a document (ISO 8601) *)

Definition utcoffset_text (o : option Z) : pystr :=
  match o with
  | None => []
  | Some off =>
      if Z.eqb off 0 then u "Z"
      else (if Z.ltb off 0 then u "-" else u "+") ++
           fixed_digits 2 (Z.abs off / 60) ++ u ":" ++
           fixed_digits 2 (Z.abs off mod 60)
  end.

Definition isoformat (d : datetime) : pystr :=
  fixed_digits 4 (year d) ++ u "-" ++ fixed_digits 2 (month d) ++ u "-" ++
  fixed_digits 2 (day d) ++ u "T" ++ fixed_digits 2 (hour d) ++ u ":" ++
  fixed_digits 2 (minute d) ++ u ":" ++ fixed_digits 2 (second d) ++
  (if Z.eqb (microsecond d) 0 then []
   else u "." ++ fixed_digits 6 (microsecond d)) ++
  utcoffset_text (utcoffset d).

(** Exactly [w] digits. *)
Fixpoint read_digits (w : nat) (acc : Z) (s : pystr) : option (Z * pystr) :=
  match w with
  | O => Some (acc, s)
  | S w' =>
      match s with
      | c :: r =>
          if is_digit c then read_digits w' (10 * acc + (Z.of_N c - 48)) r
          else None
      | [] => None
      end
  end.

Definition expect (c : N) (s : pystr) : option pystr :=
  match s with
  | x :: r => if N.eqb x c then Some r else None
  | [] => None
  end.

Definition read_utcoffset (s : pystr) : option (option Z) :=
  match s with
  | [] => Some None
  | c :: r =>
      if N.eqb c 90 then match r with [] => Some (Some 0) | _ => None end
      else if N.eqb c 43 || N.eqb c 45 then
        '(h, r1) ← read_digits 2 0 r;
        r2 ← expect 58 r1;
        '(m, r3) ← read_digits 2 0 r2;
        match r3 with
        | [] => Some (Some (signed (N.eqb c 45) (60 * h + m)))
        | _ => None
        end
      else None
  end.

(** The timestamp a document string stands for, in the forms that
    [isoformat] writes. *)
Definition parse_iso (s : pystr) : option datetime :=
  '(y, s) ← read_digits 4 0 s;
  s ← expect 45 s;
  '(mo, s) ← read_digits 2 0 s;
  s ← expect 45 s;
  '(d, s) ← read_digits 2 0 s;
  s ← expect 84 s;
  '(h, s) ← read_digits 2 0 s;
  s ← expect 58 s;
  '(mi, s) ← read_digits 2 0 s;
  s ← expect 58 s;
  '(sec, s) ← read_digits 2 0 s;
  '(us, s) ← match s with
             | 46%N :: r => read_digits 6 0 r
             | _ => Some (0, s)
             end;
  off ← read_utcoffset s;
  let dt := mk_datetime y mo d h mi sec us off in
  if valid_datetime dt then Some dt else None.

(** *** Documents of the models *)

Definition dump_option {A} (f : A -> pyval) (o : option A) : pyval :=
  match o with
  | Some a => f a
  | None => PyNone
  end.

Definition dump_datetime (d : datetime) : pyval := PyStr (isoformat d).

Definition dump_article (a : NewsArticle) : pyval :=
  PyDict
    [ (u "url", PyStr (url a));
      (u "title", PyStr (title a));
      (u "summary", PyStr (summary a));
      (u "full_text", dump_option PyStr (full_text a));
      (u "published_date", dump_option dump_datetime (published_date a));
      (u "source", PyStr (source a));
      (u "relevance_score", dump_option PyFloat (relevance_score a)) ].

(** [snapshot.model_dump_json(...)], as a document *)
Definition dump_snapshot (s : NewsSnapshot) : pyval :=
  PyDict
    [ (u "question_id", PyInt (question_id s));
      (u "fetched_at", dump_datetime (fetched_at s));
      (u "articles", PyList (List.map dump_article (articles s)));
      (u "search_query", PyStr (search_query s));
      (u "snapshot_id", PyStr (snapshot_id s)) ].

(** A required field. *)
Definition field (d : list (pystr * pyval)) (k : string) : result pyval :=
  of_option ValidationError (dict_lookup (u k) d).

(** A field with a default. *)
Definition field_default (d : list (pystr * pyval)) (k : string)
    (default : pyval) : pyval :=
  match dict_lookup (u k) d with
  | Some v => v
  | None => default
  end.

Definition validate_int (v : pyval) : result Z :=
  match v with
  | PyInt z => Ok z
  | _ => Raise ValidationError
  end.

Definition validate_float (v : pyval) : result Q :=
  match v with
  | PyFloat q => Ok q
  | PyInt z => Ok (inject_Z z)
  | _ => Raise ValidationError
  end.

Definition validate_datetime (v : pyval) : result datetime :=
  match v with
  | PyStr s => of_option ValidationError (parse_iso s)
  | _ => Raise ValidationError
  end.

Definition validate_optional {A} (f : pyval -> result A) (v : pyval)
    : result (option A) :=
  match v with
  | PyNone => Ok None
  | _ => let* a := f v in Ok (Some a)
  end.

Fixpoint validate_list {A} (f : pyval -> result A) (l : list pyval)
    : result (list A) :=
  match l with
  | [] => Ok []
  | v :: rest =>
      let* a := f v in
      let* others := validate_list f rest in
      Ok (a :: others)
  end.

Definition validate_article (v : pyval) : result NewsArticle :=
  match v with
  | PyDict d =>
      let* url_v := field d "url" in
      let* url_ := validate_str url_v in
      let* title_v := field d "title" in
      let* title_ := validate_str title_v in
      let* summary_v := field d "summary" in
      let* summary_ := validate_str summary_v in
      let* full_text_ :=
        validate_optional validate_str (field_default d "full_text" PyNone) in
      let* published_ :=
        validate_optional validate_datetime
          (field_default d "published_date" PyNone) in
      let* source_v := field d "source" in
      let* source_ := validate_str source_v in
      let* relevance_ :=
        validate_optional validate_float
          (field_default d "relevance_score" PyNone) in
      Ok (mk_NewsArticle url_ title_ summary_ full_text_ published_ source_
            relevance_)
  | _ => Raise ValidationError
  end.

(** [NewsSnapshot.model_validate(data)]; documents of other shapes than
    those of [dump_snapshot] (numbers spelled as strings, timestamps given
    as numbers, ...) are rejected here. *)
Definition validate_snapshot (v : pyval) : result NewsSnapshot :=
  match v with
  | PyDict d =>
      let* qid_v := field d "question_id" in
      let* qid := validate_int qid_v in
      let* fetched_v := field d "fetched_at" in
      let* fetched := validate_datetime fetched_v in
      let* arts_v := field d "articles" in
      let* arts :=
        match arts_v with
        | PyList l => validate_list validate_article l
        | _ => Raise ValidationError
        end in
      let* query_v := field d "search_query" in
      let* query := validate_str query_v in
      let* sid := validate_str (field_default d "snapshot_id" (PyStr [])) in
      Ok (new_NewsSnapshot qid fetched arts query sid)
  | _ => Raise ValidationError
  end.

(** *** The store *)

Record Storage : Type := mk_Storage { data_dir : pystr }.

(** The files under the data directory, by path. *)
Abbreviation files := (gmap pystr pyval).

Definition path_join (a b : pystr) : pystr := a ++ u "/" ++ b.

Definition news_dir (self : Storage) : pystr :=
  path_join (data_dir self) (u "news").

Definition _get_timestamp_filename (dt : datetime) : pystr :=
  strftime (u "%Y-%m-%dT%H-%M-%S") dt ++ u ".json".

Definition _save_model (fs : files) (path : pystr) (doc : pyval) : files :=
  <[path := doc]> fs.

Definition _load_model {T : Type} (fs : files) (path : pystr)
    (model_validate : pyval -> result T) : result (option T) :=
  match fs !! path with
  | None => Ok None
  | Some data => let* m := model_validate data in Ok (Some m)
  end.

Definition latest_path (self : Storage) (qid : Z) : pystr :=
  path_join (path_join (news_dir self) (str_of_Z qid)) (u "latest.json").

Definition save_news (self : Storage) (fs : files) (qid : Z)
    (snapshot : NewsSnapshot) : files :=
  let question_news_dir := path_join (news_dir self) (str_of_Z qid) in
  let timestamp_file :=
    path_join question_news_dir
      (_get_timestamp_filename (fetched_at snapshot)) in
  let fs := _save_model fs timestamp_file (dump_snapshot snapshot) in
  _save_model fs (latest_path self qid) (dump_snapshot snapshot).

Definition load_latest_news (self : Storage) (fs : files) (qid : Z)
    : result (option NewsSnapshot) :=
  _load_model fs (latest_path self qid) validate_snapshot.

(** ** Orchestrator ([run.py]) *)

(** The retrieval service ([fetch_news_for_question]): from the question
    and the fetch time of the previous snapshot (from which the caller
    derives [since_date], one hour earlier) to the fetched snapshot. *)
Definition retrieval_service : Type :=
  QuestionMetadata -> option datetime -> result NewsSnapshot.

(** The [else] branch of the change detection step: no previous news. *)
Definition first_run_report (now : datetime) (q : QuestionMetadata)
    (merged_news : NewsSnapshot) : result (option ChangeReport) :=
  match articles merged_news with
  | [] => Ok None
  | _ :: _ =>
      let* report :=
        new_ChangeReport (q_question_id q) now
          PyNone (snapshot_id merged_news)
          (PyStr (u "First news aggregation: found " ++
                  str_of_Z (Z.of_nat (length (articles merged_news))) ++
                  u " relevant article(s)."))
          1 (PyBool true) (articles merged_news) in
      Ok (Some report)
  end.

(** The body of the [try] block: the update and the files after it, or the
    exception raised, and the prompts submitted meanwhile. Only the news
    files of the store are represented. *)
Definition process_question_body (q : QuestionMetadata)
    (news_agg : retrieval_service) (change_detector : ChangeDetector)
    (llm : text_service) (now : datetime) (storage : Storage) (fs : files)
    : result (NewsUpdate * files) * list pystr :=
  match load_latest_news storage fs (q_question_id q) with
  | Raise e => (Raise e, [])
  | Ok previous_news =>
      match news_agg q (fetched_at <$> previous_news) with
      | Raise e => (Raise e, [])
      | Ok new_news =>
          let merged_news :=
            merge_with_previous new_news previous_news default_max_articles in
          let '(report, prompts) :=
            match previous_news with
            | Some previous =>
                let '(r, prompts) :=
                  detect_changes change_detector llm now q previous merged_news in
                (let* cr := r in Ok (Some cr), prompts)
            | None => (first_run_report now q merged_news, [])
            end in
          (let* change_report := report in
           let fs' := save_news storage fs (q_question_id q) merged_news in
           Ok (mk_NewsUpdate q merged_news change_report, fs'),
           prompts)
      end
  end.

(** [process_question]: any exception of the body is caught and reported as
    [None]; the files are then as before the call. *)
Definition process_question (q : QuestionMetadata)
    (news_agg : retrieval_service) (change_detector : ChangeDetector)
    (llm : text_service) (now : datetime) (storage : Storage) (fs : files)
    : option NewsUpdate * files * list pystr :=
  match process_question_body q news_agg change_detector llm now storage fs with
  | (Ok (update, fs'), prompts) => (Some update, fs', prompts)
  | (Raise _, prompts) => (None, fs, prompts)
  end.

(** ** Further operations of the modules above *)

(** *** Search query ([news_aggregator.py]) *)

Definition _build_search_query (q : QuestionMetadata) : pystr :=
  let query_parts := [q_title q] in
  let query_parts :=
    match q_resolution_criteria q with
    | [] => query_parts
    | criteria => query_parts ++ [str_prefix 200 criteria]
    end in
  join (u ". ") query_parts.

(** [fetch_news_for_question], above the search: [exa] stands for the
    search with its parameters and for the parsing of its results into
    articles; like the retrieval service it is given the fetch time of the
    previous snapshot, from which the start date of the search derives.
    [now] is the clock reading at the end. *)
Definition fetch_news_for_question
    (exa : pystr -> option datetime -> result (list NewsArticle))
    (now : datetime) : retrieval_service :=
  fun question previous_fetch =>
    let search_query := _build_search_query question in
    let* arts := exa search_query previous_fetch in
    Ok (new_NewsSnapshot (q_question_id question) now arts search_query []).

(** *** Timestamps of stored records ([storage.py]) *)

(** One numeric field of [strptime]: two digits when they form a value
    between [lo] and [hi] (the two-digit alternatives of the directive),
    else one digit not below [lo1]. *)
Definition read_field (lo hi lo1 : Z) (s : pystr) : option (Z * pystr) :=
  match s with
  | a :: rest =>
      if is_digit a then
        let da := Z.of_N a - 48 in
        let one := if Z.leb lo1 da then Some (da, rest) else None in
        match rest with
        | b :: rest' =>
            let v := 10 * da + (Z.of_N b - 48) in
            if is_digit b && in_range lo hi v then Some (v, rest') else one
        | [] => one
        end
      else None
  | [] => None
  end.

(** The day of the month may also be written with a leading blank. *)
Definition read_day (s : pystr) : option (Z * pystr) :=
  match read_field 1 31 1 s with
  | Some r => Some r
  | None =>
      match s with
      | sp :: a :: rest =>
          if N.eqb sp 32 && is_digit a && Z.leb 1 (Z.of_N a - 48)
          then Some (Z.of_N a - 48, rest) else None
      | _ => None
      end
  end.

(** The letter T of the format: [strptime] compiles its pattern to ignore
    case. *)
Definition expect_T (s : pystr) : option pystr :=
  match expect 84 s with
  | Some r => Some r
  | None => expect 116 s
  end.

(** [datetime.strptime(text, "%Y-%m-%dT%H-%M-%S")]: a naive value, or
    [None] for the [ValueError] of a text that does not match or does not
    name a date. Digits are the ASCII digits; the decimal digits of other
    scripts, which [strptime] also reads, are not represented. *)
Definition strptime_id (text : pystr) : option datetime :=
  '(y, s) ← read_digits 4 0 text;
  s ← expect 45 s;
  '(mo, s) ← read_field 1 12 1 s;
  s ← expect 45 s;
  '(d, s) ← read_day s;
  s ← expect_T s;
  '(h, s) ← read_field 0 23 0 s;
  s ← expect 45 s;
  '(mi, s) ← read_field 0 59 0 s;
  s ← expect 45 s;
  '(sec, s) ← read_field 0 61 0 s;
  match s with
  | [] =>
      let dt := mk_datetime y mo d h mi sec 0 None in
      if valid_datetime dt then Some dt else None
  | _ :: _ => None
  end.


(** The proleptic Gregorian ordinal of a date (day 1 is 0001-01-01). *)
Definition days_before_year (y : Z) : Z :=
  let y1 := y - 1 in y1 * 365 + y1 / 4 - y1 / 100 + y1 / 400.

Definition days_before_month (y m : Z) : Z :=
  nth (Z.to_nat (m - 1)) [0; 31; 59; 90; 120; 151; 181; 212; 243; 273; 304; 334] 0
  + (if Z.ltb 2 m && is_leap y then 1 else 0).

Definition ordinal (d : datetime) : Z :=
  days_before_year (year d) + days_before_month (year d) (month d) + day d.

(** Microseconds since the start of day 0, on the local clock. *)
Definition local_micros (d : datetime) : Z :=
  (((ordinal d * 24 + hour d) * 60 + minute d) * 60 + second d) * 1000000
  + microsecond d.

(** [a < b] on datetimes: values with an offset are compared as instants,
    values without as they read; comparing one of each kind raises
    [TypeError]. *)
Definition dt_lt (a b : datetime) : result bool :=
  match utcoffset a, utcoffset b with
  | None, None => Ok (Z.ltb (local_micros a) (local_micros b))
  | Some oa, Some ob =>
      Ok (Z.ltb (local_micros a - oa * 60000000) (local_micros b - ob * 60000000))
  | _, _ => Raise TypeError
  end.

(** *** Directory listings ([storage.py]) *)

(** [name.endswith(suffix)], returning what precedes the suffix. *)
Definition before_suffix (suffix name : pystr) : option pystr :=
  option_map (fun s => rev s) (after_prefix (rev suffix) (rev name)).

(** The names of the files of the directory [dir]. The order of a listing
    is not specified by the file system; here it is that of the store. *)
Definition dir_entries (fs : files) (dir : pystr) : list pystr :=
  omap (fun '(path, _) =>
          match after_prefix (dir ++ u "/") path with
          | Some name => if existsb (N.eqb 47) name then None else Some name
          | None => None
          end)
       (map_to_list fs).

(** [dir.glob("*.json")] *)
Definition glob_json (fs : files) (dir : pystr) : list pystr :=
  List.filter (fun name => bool_decide (is_Some (before_suffix (u ".json") name)))
    (dir_entries fs dir).

(** [path.stem] of a name that ends in ".json". *)
Definition stem (name : pystr) : pystr :=
  match before_suffix (u ".json") name with
  | Some ((_ :: _) as s) => s
  | _ => name
  end.

(** The names that [cleanup_old_snapshots] compares with the cutoff: not
    [latest.json], and a stem that reads as a timestamp. *)
Definition dated (name : pystr) : bool :=
  if bool_decide (name = u "latest.json") then false
  else match strptime_id (stem name) with
       | Some _ => true
       | None => false
       end.

(** The loop of [cleanup_old_snapshots] over the listed names. *)
Fixpoint cleanup_loop (cutoff : datetime) (dir : pystr) (names : list pystr)
    (fs : files) (removed : Z) : result Z * files :=
  match names with
  | [] => (Ok removed, fs)
  | name :: rest =>
      if bool_decide (name = u "latest.json")
      then cleanup_loop cutoff dir rest fs removed
      else
        match strptime_id (stem name) with
        | None => cleanup_loop cutoff dir rest fs removed
        | Some file_dt =>
            match dt_lt file_dt cutoff with
            | Raise e => (Raise e, fs)
            | Ok true =>
                cleanup_loop cutoff dir rest (delete (path_join dir name) fs)
                  (removed + 1)
            | Ok false => cleanup_loop cutoff dir rest fs removed
            end
        end
  end.

(** [cleanup_old_snapshots(question_id, keep_days)]; [cutoff] is the value
    of [datetime.now(timezone.utc) - timedelta(days=keep_days)], a datetime
    with an offset. *)
Definition cleanup_old_snapshots (self : Storage) (fs : files) (qid : Z)
    (cutoff : datetime) : result Z * files :=
  let dir := path_join (news_dir self) (str_of_Z qid) in
  cleanup_loop cutoff dir (glob_json fs dir) fs 0.

(** *** Series files ([storage.py]) *)

Definition series_dir (self : Storage) : pystr :=
  path_join (data_dir self) (u "series").

Definition series_path (self : Storage) (series_id : Z) : pystr :=
  path_join (series_dir self) (str_of_Z series_id ++ u ".json").

Definition save_series (self : Storage) (fs : files) (series_id : Z)
    (ids : list Z) : files :=
  <[series_path self series_id :=
      PyDict [ (u "series_id", PyInt series_id);
               (u "question_ids", PyList (PyInt <$> ids)) ]]> fs.

(** [load_series] returns the stored value as it is read. *)
Definition load_series (self : Storage) (fs : files) (series_id : Z)
    : result (option pyval) :=
  match fs !! series_path self series_id with
  | None => Ok None
  | Some data =>
      let* ids := py_get data (u "question_ids") (PyList []) in Ok (Some ids)
  end.

(** *** Questions to process ([run.py]) *)

(** The question service: [get_question] and [get_questions_in_series]
    of the client, as functions of their argument. Both return [None] or
    the empty list for a request that fails; a call that raises is not
    represented. *)
Record MetaculusClient : Type := mk_MetaculusClient {
  get_question : Z -> option QuestionMetadata;
  get_questions_in_series : Z -> list QuestionMetadata
}.

(** The deduplication loop: a question is kept when its id was not seen. *)
Fixpoint unique_questions (seen : gset Z) (questions : list QuestionMetadata)
    : list QuestionMetadata :=
  match questions with
  | [] => []
  | q :: rest =>
      if decide (q_question_id q ∈ seen) then unique_questions seen rest
      else q :: unique_questions ({[q_question_id q]} ∪ seen) rest
  end.

(** The loop over the series: the questions gathered and the files. *)
Fixpoint gather_series (client : MetaculusClient) (storage : Storage)
    (series : list Z) (questions : list QuestionMetadata) (fs : files)
    : list QuestionMetadata * files :=
  match series with
  | [] => (questions, fs)
  | series_id :: rest =>
      let series_questions := get_questions_in_series client series_id in
      gather_series client storage rest (questions ++ series_questions)
        (save_series storage fs series_id (q_question_id <$> series_questions))
  end.

(** [get_questions_to_process], for the [question_ids] and [series_ids] of
    the configuration. *)
Definition get_questions_to_process (client : MetaculusClient)
    (question_ids series_ids : list Z) (storage : Storage) (fs : files)
    : list QuestionMetadata * files :=
  let questions := omap (get_question client) question_ids in
  let '(questions, fs') :=
    gather_series client storage series_ids questions fs in
  (unique_questions ∅ questions, fs').

(** *** The loop of [main] over the questions ([run.py]) *)

(** The updates of the questions that were processed, and the files
    afterwards. [now i] is the clock reading during the call for the
    question at index [i]. *)
Fixpoint process_questions (questions : list QuestionMetadata)
    (news_agg : retrieval_service) (change_detector : ChangeDetector)
    (llm : text_service) (now : nat -> datetime) (storage : Storage)
    (fs : files) : list NewsUpdate * files :=
  match questions with
  | [] => ([], fs)
  | q :: rest =>
      let '(update, fs1, _) :=
        process_question q news_agg change_detector llm (now 0%nat) storage fs in
      let '(updates, fs2) :=
        process_questions rest news_agg change_detector llm
          (fun i => now (S i)) storage fs1 in
      (match update with
       | Some upd => upd :: updates
       | None => updates
       end, fs2)
  end.

(** [[u for u in updates if u.change_report and
    u.change_report.is_significant]] *)
Definition significant_updates (updates : list NewsUpdate) : list NewsUpdate :=
  List.filter
    (fun upd => match change_report upd with
                | Some report => is_significant report
                | None => false
                end)
    updates.

(** *** Recipients ([config.py], [email_notifier.py]) *)

(** [s.split(",")] *)
Fixpoint split_comma (s : pystr) : list pystr :=
  match s with
  | [] => [[]]
  | c :: rest =>
      if N.eqb c 44 then [] :: split_comma rest
      else
        match split_comma rest with
        | part :: parts => (c :: part) :: parts
        | [] => [[c]]
        end
  end.

(** The truth value of a str. *)
Definition non_empty (s : pystr) : bool :=
  match s with
  | [] => false
  | _ :: _ => true
  end.

(** The recipients read from the value of EMAIL_RECIPIENTS, [None] when
    the variable is not set:
    [[r.strip() for r in recipients_str.split(",") if r.strip()]]. *)
Definition parse_recipients (env : option pystr) : list pystr :=
  match env with
  | Some ((_ :: _) as recipients_str) =>
      List.filter non_empty (List.map strip (split_comma recipients_str))
  | _ => []
  end.

(** The To header of an alert: [", ".join(recipients)]. *)
Definition to_header (recipients : list pystr) : pystr :=
  join (u ", ") recipients.

(** An address as [strip] leaves it: no blank at either end. *)
Definition stripped (s : pystr) : Prop := lstrip s = s /\ lstrip (rev s) = rev s.

(** The addresses that [parse_recipients] returns. *)
Definition address (r : pystr) : Prop := r <> [] /\ (44%N ∉ r) /\ stripped r.


(** ** The wording of the specification

    Definitions that follow the words of the specification, to compare
    with the functions above. *)

(** "articles whose URL does not occur among the previous URLs", by
    membership in the list of previous articles, order kept. *)
Definition spec_genuinely_new (current previous : list NewsArticle)
    : list NewsArticle :=
  List.filter
    (fun a => negb (existsb (fun p => bool_decide (url p = url a)) previous))
    current.

(** "genuinely new articles prepended to the entire previous list" *)
Definition spec_combined (new_snapshot previous : NewsSnapshot)
    : list NewsArticle :=
  spec_genuinely_new (articles new_snapshot) (articles previous)
  ++ articles previous.







(** ** Sample data *)

Definition sample_time : datetime := mk_datetime 2025 3 1 12 30 0 0 (Some 0).
Definition later_time : datetime := mk_datetime 2025 3 2 12 30 0 0 (Some 0).

Definition sample_article (address headline : string) : NewsArticle :=
  mk_NewsArticle (u address) (u headline) (u "A summary.") None
    (Some sample_time) (u "example.com") (Some (1 # 2)).

Definition art_A : NewsArticle := sample_article "https://example.com/a" "A".
Definition art_B : NewsArticle := sample_article "https://example.com/b" "B".
Definition art_C : NewsArticle := sample_article "https://example.com/c" "C".
(** Another article at the address of [art_A]. *)
Definition art_A' : NewsArticle := sample_article "https://example.com/a" "A again".

Definition sample_snapshot (t : datetime) (arts : list NewsArticle)
    : NewsSnapshot :=
  new_NewsSnapshot 7 t arts (u "Will it rain?. Resolves yes if it rains.") [].

Definition sample_question : QuestionMetadata :=
  mk_QuestionMetadata 7 (u "Will it rain?") (u "Resolves yes if it rains.").

Definition sample_detector : ChangeDetector :=
  mk_ChangeDetector (u "gpt-5-mini") default_significance_threshold.

(** A text-generation service that always replies [text]. *)
Definition replying (text : pystr) : text_service :=
  fun _ _ => Ok (Some text).

(** A retrieval service that always returns [arts], fetched at [t]. *)
Definition fetching (t : datetime) (arts : list NewsArticle)
    : retrieval_service :=
  fun _ _ => Ok (sample_snapshot t arts).

(** A reply that is not JSON at all. *)
Definition reply_plain : pystr := u "I cannot tell whether this matters.".


(** A reply whose flag is the string "false" instead of a boolean. *)
Definition reply_string_flag : pystr :=
  dq "{'SIGNIFICANCE_SCORE': 0.9, 'IS_SIGNIFICANT': 'false', 'CHANGE_SUMMARY': 'Big news.'}".


Definition sample_storage : Storage := mk_Storage (u "data").

(** The store after a first snapshot of the sample question. *)
Definition stored_files : files :=
  save_news sample_storage ∅ 7 (sample_snapshot sample_time [art_A; art_B]).

Definition other_question : QuestionMetadata :=
  mk_QuestionMetadata 8 (u "Will it snow?") [].

(** A question service that knows the two sample questions, both in
    series 1. *)
Definition sample_client : MetaculusClient :=
  mk_MetaculusClient
    (fun qid => if Z.eqb qid 7 then Some sample_question
                else if Z.eqb qid 8 then Some other_question else None)
    (fun series_id => if Z.eqb series_id 1
                      then [other_question; sample_question] else []).


(** A well-formed reply. *)
Definition reply_minor : pystr :=
  dq "{'SIGNIFICANCE_SCORE': 0.1, 'IS_SIGNIFICANT': false, 'CHANGE_SUMMARY': 'Minor.'}".

(** A text-generation service that is out of order. *)
Definition failing : text_service := fun _ _ => Raise ServiceError.

(** A text-generation service whose reply has no content. *)
Definition silent : text_service := fun _ _ => Ok None.

(** A search that always finds [arts]. *)
Definition finding (arts : list NewsArticle)
    : pystr -> option datetime -> result (list NewsArticle) :=
  fun _ _ => Ok arts.

(** * Properties *)

(** ** Sanity checks of the embedding *)

Example str_of_Z_3 : str_of_Z 3 = u "3".
Proof. reflexivity. Qed.

Example slice_to_neg : slice_to [1; 2; 3] (-1) = [1; 2].
Proof. reflexivity. Qed.

Example join_2 : join (u ", ") [u "a"; u "b"] = u "a, b".
Proof. reflexivity. Qed.

Example strftime_id :
  strftime (u "%Y-%m-%dT%H-%M-%S") (mk_datetime 2025 1 9 7 5 3 120 (Some 0))
  = u "2025-01-09T07-05-03".
Proof. reflexivity. Qed.

Example isoformat_parse :
  parse_iso (isoformat (mk_datetime 2025 1 9 7 5 3 120 (Some (-90))))
  = Some (mk_datetime 2025 1 9 7 5 3 120 (Some (-90))).
Proof. vm_compute. reflexivity. Qed.

Example json_loads_object :
  json_loads (dq "{'a': [1, -2.5e1, null], 'b': 'x\ty', 'a': true} ")
  = Ok (PyDict [(u "a", PyBool true); (u "b", PyStr [120; 9; 121]%N)]).
Proof. vm_compute. reflexivity. Qed.

Example json_loads_trailing_comma :
  json_loads (dq "[1,]") = Raise JSONDecodeError.
Proof. vm_compute. reflexivity. Qed.

Example fence_search :
  re_search fence_pattern (backticks ++ dq "json {'a': {'b': 1}} " ++ backticks)
  = Some (dq "{'a': {'b': 1}}").
Proof. vm_compute. reflexivity. Qed.

Example brace_search :
  re_search brace_pattern (u "x { {a} }") = Some (u "{a}").
Proof. vm_compute. reflexivity. Qed.

(** ** The JSON scanner *)

Section ScannerBounds.
Local Open Scope nat_scope.

Lemma skip_ws_length (s : pystr) : length (skip_ws s) <= length s.
Proof.
  induction s as [|c s IH]; [reflexivity|]. simpl.
  destruct (is_json_ws c); simpl; lia.
Qed.

Lemma span_digits_length (s ds r : pystr) :
  span_digits s = (ds, r) -> length s = length ds + length r.
Proof.
  revert ds r. induction s as [|c s IH]; intros ds r H; simpl in H.
  - by injection H as <- <-.
  - destruct (is_digit c).
    + destruct (span_digits s) as [ds' r'] eqn:E. injection H as <- <-.
      simpl. by rewrite (IH ds' r' eq_refl).
    + by injection H as <- <-.
Qed.

Lemma after_prefix_length (p s r : pystr) :
  after_prefix p s = Some r -> length s = length p + length r.
Proof.
  revert s. induction p as [|a p IH]; intros s H; simpl in H.
  - destruct s; by injection H as <-.
  - destruct s as [|b s]; [discriminate|].
    destruct (N.eqb a b); [|discriminate]. simpl. by rewrite (IH s H).
Qed.

Lemma scanstring_length (s acc str r : pystr) :
  scanstring s acc = Some (str, r) -> length r < length s.
Proof.
  remember (length s) as n eqn:Hn. revert s acc Hn.
  induction n as [n IH] using lt_wf_ind. intros s acc Hn H.
  destruct s as [|c s]; [discriminate|]. simpl in H, Hn.
  destruct (N.eqb c 34); [injection H as <- <-; lia|].
  destruct (N.eqb c 92).
  - destruct s as [|e r1]; [discriminate|].
    destruct (N.eqb e 117).
    + destruct r1 as [|h1 [|h2 [|h3 [|h4 r2]]]]; try discriminate.
      destruct (hex4 h1 h2 h3 h4) as [cp|]; [|discriminate].
      assert (Hr2 : forall a, scanstring r2 a = Some (str, r) -> length r < n).
      { intros a Ha. subst n. simpl.
        specialize (IH (length r2) ltac:(simpl; lia) r2 a eq_refl Ha). lia. }
      destruct (is_high_surrogate cp); [|by eapply Hr2].
      destruct r2 as [|b [|uu [|l1 [|l2 [|l3 [|l4 r3]]]]]]; try (by eapply Hr2).
      destruct (N.eqb b 92 && N.eqb uu 117); [|by eapply Hr2].
      destruct (hex4 l1 l2 l3 l4) as [lo|]; [|discriminate].
      destruct (is_low_surrogate lo); [|by eapply Hr2].
      subst n. simpl.
      specialize (IH (length r3) ltac:(simpl; lia) r3 _ eq_refl H). lia.
    + destruct (unescape e) as [ch|]; [|discriminate].
      subst n. simpl.
      specialize (IH (length r1) ltac:(simpl; lia) r1 _ eq_refl H). lia.
  - destruct (N.ltb c 32); [discriminate|].
    subst n. specialize (IH (length s) ltac:(lia) s _ eq_refl H). lia.
Qed.

Lemma scan_exponent_length (s r : pystr) (e : Z) :
  scan_exponent s = Some (e, r) -> length r < length s.
Proof.
  unfold scan_exponent. destruct s as [|c rest]; [discriminate|].
  destruct (N.eqb c 101 || N.eqb c 69); [|discriminate].
  intros H.
  assert (Hd : forall t, match span_digits t with
                         | ([], _) => None
                         | (d :: ds, r0) => Some (e, r0)
                         end = Some (e, r) -> length r <= length t).
  { intros t Ht. destruct (span_digits t) as [[|d ds] r0] eqn:E; [discriminate|].
    injection Ht as <-. apply span_digits_length in E. lia. }
  destruct rest as [|sg r0]; simpl in H; [discriminate|].
  destruct (N.eqb sg 45).
  - destruct (span_digits r0) as [[|d ds] r1] eqn:E; [discriminate|].
    injection H as <- <-. apply span_digits_length in E. simpl. lia.
  - destruct (N.eqb sg 43).
    + destruct (span_digits r0) as [[|d ds] r1] eqn:E; [discriminate|].
      injection H as <- <-. apply span_digits_length in E. simpl. lia.
    + destruct (span_digits (sg :: r0)) as [[|d ds] r1] eqn:E; [discriminate|].
      injection H as <- <-. apply span_digits_length in E. simpl in *. lia.
Qed.

Lemma scan_number_length (s r : pystr) (v : pyval) :
  scan_number s = Some (v, r) -> length r < length s.
Proof.
  unfold scan_number.
  set (sign := match s with
               | c :: r0 => if N.eqb c 45 then (true, r0) else (false, s)
               | [] => (false, s)
               end).
  assert (Hs : length sign.2 <= length s).
  { subst sign. destruct s as [|c r0]; [reflexivity|].
    destruct (N.eqb c 45); simpl; lia. }
  destruct sign as [neg s1]. simpl in Hs.
  set (int_part := match s1 with
                   | c :: r0 =>
                       if N.eqb c 48 then Some ([c], r0)
                       else if is_digit c then Some (span_digits s1) else None
                   | [] => None
                   end).
  assert (Hi : forall ids s2, int_part = Some (ids, s2) -> length s2 < length s1).
  { subst int_part. intros ids s2 H. destruct s1 as [|c r0]; [discriminate|].
    destruct (N.eqb c 48); [injection H as <- <-; simpl; lia|].
    destruct (is_digit c) eqn:Ec; [|discriminate].
    injection H as H. simpl in H. rewrite Ec in H.
    destruct (span_digits r0) as [ds r1] eqn:E. injection H as <- <-.
    apply span_digits_length in E. simpl. lia. }
  destruct int_part as [[ids s2]|]; [|discriminate].
  specialize (Hi ids s2 eq_refl).
  set (frac := match s2 with
               | dot :: d :: r0 =>
                   if N.eqb dot 46 && is_digit d then span_digits (d :: r0)
                   else ([], s2)
               | _ => ([], s2)
               end).
  assert (Hf : length frac.2 <= length s2).
  { subst frac. destruct s2 as [|dot [|d r0]]; try reflexivity.
    destruct (N.eqb dot 46 && is_digit d); [|reflexivity].
    destruct (span_digits (d :: r0)) as [ds r1] eqn:E.
    apply span_digits_length in E. simpl in *. lia. }
  destruct frac as [fds s3]. simpl in Hf. intros H.
  destruct (scan_exponent s3) as [[e s4]|] eqn:Ee.
  - apply scan_exponent_length in Ee. injection H as <- <-. lia.
  - destruct fds; injection H as <- <-; lia.
Qed.

Lemma scan_members_length scan (n : nat) (s : pystr) acc v r :
  consumes scan -> scan_members scan n s acc = Some (v, r) -> length r < length s.
Proof.
  intros Hc. revert s acc. induction n as [|n IH]; intros s acc H; [discriminate|].
  destruct s as [|c s]; [discriminate|]. cbn [scan_members] in H.
  destruct (N.eqb c 34); [|discriminate].
  destruct (scanstring s []) as [[key r1]|] eqn:Ek; [|discriminate].
  apply scanstring_length in Ek. pose proof (skip_ws_length r1) as Hw1.
  destruct (skip_ws r1) as [|c2 r2]; [discriminate|].
  destruct (N.eqb c2 58); [|discriminate].
  pose proof (skip_ws_length r2) as Hw2.
  destruct (scan (skip_ws r2)) as [[v0 r3]|] eqn:Es; [|discriminate].
  apply Hc in Es. pose proof (skip_ws_length r3) as Hw3.
  destruct (skip_ws r3) as [|c4 r4]; [discriminate|].
  pose proof (skip_ws_length r4) as Hw4. cbn [length] in *.
  destruct (N.eqb c4 125); [injection H as <- <-; lia|].
  destruct (N.eqb c4 44); [|discriminate].
  apply IH in H. lia.
Qed.

Lemma scan_elements_length scan (n : nat) (s : pystr) acc v r :
  consumes scan -> scan_elements scan n s acc = Some (v, r) -> length r < length s.
Proof.
  intros Hc. revert s acc. induction n as [|n IH]; intros s acc H; [discriminate|].
  cbn [scan_elements] in H.
  destruct (scan s) as [[v0 r0]|] eqn:Es; [|discriminate].
  apply Hc in Es. pose proof (skip_ws_length r0) as Hw.
  destruct (skip_ws r0) as [|c r1]; [discriminate|].
  pose proof (skip_ws_length r1) as Hw1. cbn [length] in *.
  destruct (N.eqb c 93); [injection H as <- <-; lia|].
  destruct (N.eqb c 44); [|discriminate].
  apply IH in H. lia.
Qed.

Lemma scan_object_length scan (s : pystr) v r :
  consumes scan -> scan_object scan s = Some (v, r) -> length r <= length s.
Proof.
  intros Hc H. unfold scan_object in H. pose proof (skip_ws_length s) as Hw.
  destruct (skip_ws s) as [|c r0]; [discriminate|]. cbn [length] in Hw.
  destruct (N.eqb c 125); [injection H as <- <-; lia|].
  apply scan_members_length in H; [cbn [length] in H; lia|exact Hc].
Qed.

Lemma scan_array_length scan (s : pystr) v r :
  consumes scan -> scan_array scan s = Some (v, r) -> length r <= length s.
Proof.
  intros Hc H. unfold scan_array in H. pose proof (skip_ws_length s) as Hw.
  destruct (skip_ws s) as [|c r0]; [discriminate|]. cbn [length] in Hw.
  destruct (N.eqb c 93); [injection H as <- <-; lia|].
  apply scan_elements_length in H; [cbn [length] in H; lia|exact Hc].
Qed.

Lemma scan_once_unfold (depth : nat) (c : N) (r : pystr) :
  scan_once (S depth) (c :: r)
  = if N.eqb c 34 then
      match scanstring r [] with
      | Some (str, r') => Some (PyStr str, r')
      | None => None
      end
    else if N.eqb c 123 then scan_object (scan_once depth) r
    else if N.eqb c 91 then scan_array (scan_once depth) r
    else
      match after_prefix (u "null") (c :: r), after_prefix (u "true") (c :: r),
            after_prefix (u "false") (c :: r) with
      | Some r', _, _ => Some (PyNone, r')
      | _, Some r', _ => Some (PyBool true, r')
      | _, _, Some r' => Some (PyBool false, r')
      | None, None, None => scan_number (c :: r)
      end.
Proof. reflexivity. Qed.

Lemma scan_once_consumes (depth : nat) : consumes (scan_once depth).
Proof.
  induction depth as [|depth IH]; intros s v r H; [discriminate|].
  destruct s as [|c s]; [discriminate|]. rewrite scan_once_unfold in H.
  destruct (N.eqb c 34).
  { destruct (scanstring s []) as [[str r']|] eqn:E; [|discriminate].
    injection H as <- <-. apply scanstring_length in E. simpl. lia. }
  destruct (N.eqb c 123).
  { apply scan_object_length in H; [simpl; lia|exact IH]. }
  destruct (N.eqb c 91).
  { apply scan_array_length in H; [simpl; lia|exact IH]. }
  destruct (after_prefix (u "null") (c :: s)) as [r1|] eqn:E1.
  { injection H as <- <-. apply after_prefix_length in E1. rewrite E1. simpl. lia. }
  destruct (after_prefix (u "true") (c :: s)) as [r2|] eqn:E2.
  { injection H as <- <-. apply after_prefix_length in E2. rewrite E2. simpl. lia. }
  destruct (after_prefix (u "false") (c :: s)) as [r3|] eqn:E3.
  { injection H as <- <-. apply after_prefix_length in E3. rewrite E3. simpl. lia. }
  by apply scan_number_length in H.
Qed.

(** *** The bounds of the scanner are never the cause of a failure *)

Lemma scan_members_fuel scan1 scan2 (m : nat) :
  consumes scan1 ->
  (forall t, length t <= m -> scan1 t = scan2 t) ->
  forall n1 n2 s acc,
    length s <= m -> length s <= n1 -> length s <= n2 ->
    scan_members scan1 n1 s acc = scan_members scan2 n2 s acc.
Proof.
  intros Hc Hagree. induction n1 as [|n1 IH]; intros n2 s acc Hm H1 H2.
  - destruct s; [|cbn [length] in H1; lia]. by destruct n2.
  - destruct s as [|c s]; [by destruct n2|].
    destruct n2 as [|n2]; [cbn [length] in H2; lia|].
    cbn [scan_members length] in *.
    destruct (N.eqb c 34); [|reflexivity].
    destruct (scanstring s []) as [[key r1]|] eqn:Ek; [|reflexivity].
    apply scanstring_length in Ek. pose proof (skip_ws_length r1) as Hw1.
    destruct (skip_ws r1) as [|c2 r2]; [reflexivity|]. cbn [length] in Hw1.
    destruct (N.eqb c2 58); [|reflexivity].
    pose proof (skip_ws_length r2) as Hw2.
    rewrite <- (Hagree (skip_ws r2)) by lia.
    destruct (scan1 (skip_ws r2)) as [[v0 r3]|] eqn:Es; [|reflexivity].
    apply Hc in Es. pose proof (skip_ws_length r3) as Hw3.
    destruct (skip_ws r3) as [|c4 r4]; [reflexivity|]. cbn [length] in Hw3.
    pose proof (skip_ws_length r4) as Hw4.
    destruct (N.eqb c4 125); [reflexivity|].
    destruct (N.eqb c4 44); [|reflexivity].
    apply IH; lia.
Qed.

Lemma consumes_nil scan : consumes scan -> scan [] = None.
Proof.
  intros Hc. destruct (scan []) as [[v r]|] eqn:E; [|reflexivity].
  apply Hc in E. cbn [length] in E. lia.
Qed.

Lemma scan_elements_nil scan (n : nat) acc :
  scan [] = None -> scan_elements scan n [] acc = None.
Proof. intros H. destruct n; [reflexivity|]. cbn [scan_elements]. by rewrite H. Qed.

Lemma scan_elements_fuel scan1 scan2 (m : nat) :
  consumes scan1 ->
  (forall t, length t <= m -> scan1 t = scan2 t) ->
  forall n1 n2 s acc,
    length s <= m -> length s <= n1 -> length s <= n2 ->
    scan_elements scan1 n1 s acc = scan_elements scan2 n2 s acc.
Proof.
  intros Hc Hagree.
  pose proof (consumes_nil _ Hc) as Hnil1.
  assert (Hnil2 : scan2 [] = None).
  { rewrite <- (Hagree []) by (cbn [length]; lia). exact Hnil1. }
  induction n1 as [|n1 IH]; intros n2 s acc Hm H1 H2.
  - destruct s; [|cbn [length] in H1; lia].
    by rewrite (scan_elements_nil scan2 n2 acc Hnil2).
  - destruct n2 as [|n2].
    { destruct s; [|cbn [length] in H2; lia].
      by rewrite (scan_elements_nil scan1 (S n1) acc Hnil1). }
    cbn [scan_elements].
    rewrite <- (Hagree s) by lia.
    destruct (scan1 s) as [[v0 r0]|] eqn:Es; [|reflexivity].
    apply Hc in Es. pose proof (skip_ws_length r0) as Hw.
    destruct (skip_ws r0) as [|c r1]; [reflexivity|]. cbn [length] in Hw.
    pose proof (skip_ws_length r1) as Hw1.
    destruct (N.eqb c 93); [reflexivity|].
    destruct (N.eqb c 44); [|reflexivity].
    apply IH; lia.
Qed.

(** With a bound above the length of the text, the result of the scanner
    does not depend on the bound. *)
Lemma scan_once_fuel (d1 d2 : nat) (s : pystr) :
  length s < d1 -> length s < d2 -> scan_once d1 s = scan_once d2 s.
Proof.
  revert d2 s. induction d1 as [|d1 IH]; intros d2 s H1 H2; [lia|].
  destruct d2 as [|d2]; [lia|].
  destruct s as [|c s]; [reflexivity|]. cbn [length] in H1, H2.
  rewrite !scan_once_unfold.
  assert (Hagree : forall t, length t <= length s ->
                             scan_once d1 t = scan_once d2 t).
  { intros t Ht. apply IH; lia. }
  pose proof (scan_once_consumes d1) as Hc.
  destruct (N.eqb c 34); [reflexivity|].
  destruct (N.eqb c 123).
  { unfold scan_object. pose proof (skip_ws_length s) as Hw.
    destruct (skip_ws s) as [|c0 r0]; [reflexivity|].
    destruct (N.eqb c0 125); [reflexivity|].
    by apply (scan_members_fuel _ _ (length s)). }
  destruct (N.eqb c 91); [|reflexivity].
  unfold scan_array. pose proof (skip_ws_length s) as Hw.
  destruct (skip_ws s) as [|c0 r0]; [reflexivity|].
  destruct (N.eqb c0 93); [reflexivity|].
  by apply (scan_elements_fuel _ _ (length s)).
Qed.

(** Every depth above the length of the text gives [json_loads] the
    same scan. *)
Lemma json_loads_depth (text : pystr) (d : nat) :
  length text < d ->
  scan_once d (skip_ws text) = scan_once (S (length text)) (skip_ws text).
Proof.
  intros H. pose proof (skip_ws_length text). apply scan_once_fuel; lia.
Qed.

End ScannerBounds.

(** ** Merge *)

Lemma not_in_urls_spec (previous current : list NewsArticle) :
  not_in_urls (url_set previous) current = spec_genuinely_new current previous.
Proof.
  unfold not_in_urls, spec_genuinely_new.
  induction current as [|a current IH]; [reflexivity|].
  rewrite filter_cons. simpl. rewrite IH.
  assert (Hiff : url a ∈ url_set previous <->
                 existsb (fun p => bool_decide (url p = url a)) previous = true).
  { unfold url_set. rewrite elem_of_list_to_set, list_elem_of_fmap, existsb_exists.
    split.
    - intros (p & Hp & Hin). exists p. split.
      + by apply list_elem_of_In.
      + by apply bool_decide_eq_true.
    - intros (p & Hin & Hp). exists p. split.
      + by apply bool_decide_eq_true in Hp.
      + by apply list_elem_of_In. }
  destruct (existsb _ previous) eqn:E; simpl.
  - rewrite decide_False; [reflexivity|]. intros Hn. apply Hn, Hiff. reflexivity.
  - rewrite decide_True; [reflexivity|]. intros Hin. apply Hiff in Hin. discriminate.
Qed.

Lemma new_NewsSnapshot_articles qid t arts query sid :
  articles (new_NewsSnapshot qid t arts query sid) = arts.
Proof. reflexivity. Qed.

Lemma slice_to_nonneg {A} (l : list A) (n : Z) :
  0 <= n -> slice_to l n = take (Z.to_nat n) l.
Proof. intros H. unfold slice_to. by rewrite (proj2 (Z.leb_le 0 n)). Qed.

Lemma slice_to_negative {A} (l : list A) (n : Z) :
  n < 0 -> slice_to l n = take (length l - Z.to_nat (- n)) l.
Proof.
  intros H. unfold slice_to.
  destruct (Z.leb_spec 0 n) as [Hle|_]; [lia|].
  f_equal. lia.
Qed.

(** C2 (as amended). Without a previous snapshot the merge returns the new
    snapshot unchanged. With one, the merged articles are the articles of
    the new snapshot whose URL does not occur among the previous URLs, in
    their order, followed by all previous articles in their order; this
    list is cut to its first [max_articles] entries when [max_articles] is
    not negative, and loses its last [-max_articles] entries when it is
    negative. The result carries the question id, fetch time and search
    query of the new snapshot. Previous {A, B} merged with a fetch {B, C}
    gives [C, A, B]. *)
Theorem merge_with_previous_spec
    (new_snapshot previous : NewsSnapshot) (max_articles : Z) :
  merge_with_previous new_snapshot None max_articles = new_snapshot
  /\ (let merged := merge_with_previous new_snapshot (Some previous) max_articles in
      let combined := spec_combined new_snapshot previous in
      articles merged
      = (if Z.leb 0 max_articles then take (Z.to_nat max_articles) combined
         else take (length combined - Z.to_nat (- max_articles)) combined)
      /\ question_id merged = question_id new_snapshot
      /\ fetched_at merged = fetched_at new_snapshot
      /\ search_query merged = search_query new_snapshot)
  /\ articles (merge_with_previous (sample_snapshot later_time [art_B; art_C])
                 (Some (sample_snapshot sample_time [art_A; art_B]))
                 default_max_articles)
     = [art_C; art_A; art_B].
Proof.
  split; [reflexivity|]. split.
  - cbn zeta. unfold merge_with_previous.
    rewrite new_NewsSnapshot_articles, not_in_urls_spec.
    fold (spec_combined new_snapshot previous).
    repeat split.
    destruct (Z.leb_spec 0 max_articles).
    + by apply slice_to_nonneg.
    + by apply slice_to_negative.
  - vm_compute. reflexivity.
Qed.

(** C2 (as stated) fails for a negative bound: with [max_articles = -1],
    previous {A, B} and a fetch {B, C}, the merge keeps [C, A], which is
    not the list of the first [max_articles] entries. *)
Lemma merge_negative_bound_counterexample :
  let new_snapshot := sample_snapshot later_time [art_B; art_C] in
  let previous := sample_snapshot sample_time [art_A; art_B] in
  articles (merge_with_previous new_snapshot (Some previous) (-1))
  = [art_C; art_A]
  /\ articles (merge_with_previous new_snapshot (Some previous) (-1))
     <> take (Z.to_nat (-1)) (spec_combined new_snapshot previous).
Proof.
  cbn zeta. split.
  - vm_compute. reflexivity.
  - vm_compute. discriminate.
Qed.

(** Cutting a list keeps it free of duplicates. *)
Lemma NoDup_slice_to {A} (l : list A) (n : Z) : NoDup l -> NoDup (slice_to l n).
Proof.
  intros H. unfold slice_to.
  destruct (Z.leb 0 n); (eapply sublist_NoDup; [exact H | apply sublist_take]).
Qed.

Lemma fmap_slice_to {A B} (f : A -> B) (l : list A) (n : Z) :
  f <$> slice_to l n = slice_to (f <$> l) n.
Proof.
  unfold slice_to. rewrite length_fmap.
  destruct (Z.leb 0 n); by rewrite fmap_take.
Qed.

Lemma not_in_urls_elem (urls : gset pystr) (arts : list NewsArticle) (x : pystr) :
  x ∈ (url <$> not_in_urls urls arts) -> (x ∉ urls) /\ (x ∈ (url <$> arts)).
Proof.
  unfold not_in_urls. rewrite !list_elem_of_fmap.
  intros (a & -> & Hin). apply list_elem_of_filter in Hin as [Hn Hin].
  split; [exact Hn | by exists a].
Qed.

Lemma not_in_urls_NoDup (urls : gset pystr) (arts : list NewsArticle) :
  NoDup (url <$> arts) -> NoDup (url <$> not_in_urls urls arts).
Proof.
  intros H. eapply sublist_NoDup; [exact H|].
  apply fmap_sublist. unfold not_in_urls. apply sublist_filter.
Qed.

(** The URL set of a list has as many members as the list exactly when no
    URL occurs twice. *)
Lemma url_set_size (arts : list NewsArticle) :
  NoDup (url <$> arts) -> size (url_set arts) = length arts.
Proof.
  intros H. unfold url_set.
  rewrite size_list_to_set by exact H. apply length_fmap.
Qed.

(** C6 (as amended). When no two articles of the new snapshot share a URL,
    and no two articles of the previous snapshot (if there is one) do, no
    two articles of the merged snapshot share a URL, for every bound: the
    URL set of the merged articles has the cardinality of their list. *)
Theorem merge_no_duplicate_urls
    (new_snapshot : NewsSnapshot) (previous_snapshot : option NewsSnapshot)
    (max_articles : Z) :
  NoDup (url <$> articles new_snapshot) ->
  match previous_snapshot with
  | Some previous => NoDup (url <$> articles previous)
  | None => True
  end ->
  let merged := merge_with_previous new_snapshot previous_snapshot max_articles in
  NoDup (url <$> articles merged)
  /\ size (url_set (articles merged)) = length (articles merged).
Proof.
  intros Hnew Hprev merged.
  assert (Hnd : NoDup (url <$> articles merged)).
  { subst merged. destruct previous_snapshot as [previous|]; [|exact Hnew].
    unfold merge_with_previous. rewrite new_NewsSnapshot_articles, fmap_slice_to.
    apply NoDup_slice_to. rewrite fmap_app. apply NoDup_app. repeat split.
    - by apply not_in_urls_NoDup.
    - intros x Hx Hin. apply not_in_urls_elem in Hx as [Hn _].
      apply Hn. unfold url_set. by apply elem_of_list_to_set.
    - exact Hprev. }
  split; [exact Hnd | by apply url_set_size].
Qed.

Lemma merge_no_duplicate_urls_witness :
  let merged :=
    merge_with_previous (sample_snapshot later_time [art_B; art_C])
      (Some (sample_snapshot sample_time [art_A; art_B])) 2 in
  NoDup (url <$> articles merged)
  /\ size (url_set (articles merged)) = length (articles merged).
Proof.
  apply (merge_no_duplicate_urls (sample_snapshot later_time [art_B; art_C])
           (Some (sample_snapshot sample_time [art_A; art_B])) 2).
  - apply (bool_decide_unpack _). vm_compute. exact I.
  - apply (bool_decide_unpack _). vm_compute. exact I.
Defined.

(** C6 (as stated) fails: a fetch that lists one URL twice, merged with an
    empty previous snapshot, keeps both entries. *)
Lemma merge_duplicate_urls_counterexample :
  let merged :=
    merge_with_previous (sample_snapshot later_time [art_A; art_A'])
      (Some (sample_snapshot sample_time [])) default_max_articles in
  articles merged = [art_A; art_A']
  /\ size (url_set (articles merged)) = 1%nat
  /\ length (articles merged) = 2%nat
  /\ ~ NoDup (url <$> articles merged).
Proof.
  cbn zeta. repeat split; try (vm_compute; reflexivity).
  intros H. apply (bool_decide_pack _) in H. vm_compute in H. exact H.
Qed.

(** ** Change classifier *)





(** What a successful construction of a [ChangeReport] tells. *)
Lemma new_ChangeReport_Ok qid now prev_id cur_id text score flag arts report :
  new_ChangeReport qid now prev_id cur_id text score flag arts = Ok report ->
  exists prev txt b,
    prev_id = PyStr prev /\ text = PyStr txt /\ validate_bool flag = Ok b
    /\ Qle_bool 0 score = true /\ Qle_bool score 1 = true
    /\ report = mk_ChangeReport qid now prev cur_id txt score b arts.
Proof.
  unfold new_ChangeReport, validate_unit_interval. intros H.
  destruct prev_id; try discriminate. destruct text; try discriminate.
  simpl in H.
  destruct (Qle_bool 0 score) eqn:E0; [|discriminate].
  destruct (Qle_bool score 1) eqn:E1; [|discriminate].
  simpl in H. destruct (validate_bool flag) as [b|] eqn:Eb; [|discriminate].
  simpl in H. eexists _, _, _. repeat split; congruence.
Qed.

(** The list of genuinely new articles that [detect_changes] computes. *)
Lemma detect_changes_empty self llm now q previous current :
  not_in_urls (url_set (articles previous)) (articles current) = [] ->
  detect_changes self llm now q previous current
  = (Ok (mk_ChangeReport (q_question_id q) now (snapshot_id previous)
           (snapshot_id current) (u "No new articles found since last check.")
           0 false []), []).
Proof. intros H. unfold detect_changes. rewrite H. reflexivity. Qed.

Lemma detect_changes_nonempty self llm now q previous current :
  not_in_urls (url_set (articles previous)) (articles current) <> [] ->
  detect_changes self llm now q previous current
  = (let new_arts :=
       not_in_urls (url_set (articles previous)) (articles current) in
     let* content := llm (model self) (build_prompt q previous new_arts) in
     let* res := parse_or_fallback (reply_text content) (length new_arts) in
     build_report self now (q_question_id q) previous current new_arts res,
     [build_prompt q previous
        (not_in_urls (url_set (articles previous)) (articles current))]).
Proof.
  intros H. unfold detect_changes.
  destruct (not_in_urls _ _) eqn:E; [congruence|reflexivity].
Qed.

Lemma not_in_urls_nil (urls : gset pystr) (arts : list NewsArticle) :
  (forall a, a ∈ arts -> url a ∈ urls) -> not_in_urls urls arts = [].
Proof.
  unfold not_in_urls. induction arts as [|a arts IH]; intros H; [reflexivity|].
  rewrite filter_cons, decide_False.
  - apply IH. intros b Hb. apply H. by right.
  - intros Hn. apply Hn, H. by left.
Qed.

(** C7. When every article URL of the current snapshot occurs among the
    URLs of the previous one, [detect_changes] returns a report with score
    0.0, not significant, no new articles and the summary "No new articles
    found since last check.", and submits nothing to the text-generation
    service. *)
Theorem detect_changes_short_circuit self llm now q previous current :
  (forall a, a ∈ articles current ->
             url a ∈ (url <$> articles previous)) ->
  exists report,
    detect_changes self llm now q previous current = (Ok report, [])
    /\ significance_score report = 0%Q
    /\ is_significant report = false
    /\ new_articles report = []
    /\ change_summary report = u "No new articles found since last check.".
Proof.
  intros Hsub. eexists. split.
  - apply detect_changes_empty, not_in_urls_nil.
    intros a Hin. unfold url_set. apply elem_of_list_to_set. by apply Hsub.
  - repeat split; reflexivity.
Qed.

Lemma detect_changes_short_circuit_witness :
  exists report,
    detect_changes sample_detector (replying reply_plain) later_time
      sample_question (sample_snapshot sample_time [art_A; art_B])
      (sample_snapshot later_time [art_B; art_A]) = (Ok report, [])
    /\ significance_score report = 0%Q
    /\ is_significant report = false
    /\ new_articles report = []
    /\ change_summary report = u "No new articles found since last check.".
Proof.
  apply detect_changes_short_circuit.
  intros a Ha. apply (bool_decide_unpack _).
  cbn in Ha. apply elem_of_cons in Ha as [-> | Ha]; [vm_compute; exact I|].
  apply elem_of_cons in Ha as [-> | Ha]; [vm_compute; exact I|].
  by apply elem_of_nil in Ha.
Defined.

(** What a report built from a parsed (or fallback) result tells. *)
Lemma build_report_Ok self now qid previous current new_arts res report :
  build_report self now qid previous current new_arts res = Ok report ->
  exists raw flag,
    py_get res (u "SIGNIFICANCE_SCORE") (PyFloat 0) = Ok raw
    /\ py_float raw = Ok (significance_score report)
    /\ py_get res (u "IS_SIGNIFICANT") (PyBool false) = Ok flag
    /\ validate_bool
         (py_or flag (PyBool (Qgtb (significance_score report)
                                (significance_threshold self))))
       = Ok (is_significant report)
    /\ Qle_bool 0 (significance_score report) = true
    /\ Qle_bool (significance_score report) 1 = true
    /\ new_articles report = new_arts.
Proof.
  unfold build_report. intros H.
  destruct (py_get res (u "SIGNIFICANCE_SCORE") _) as [raw|] eqn:E1; [|discriminate].
  simpl in H. destruct (py_float raw) as [score|] eqn:E2; [|discriminate].
  simpl in H.
  destruct (py_get res (u "IS_SIGNIFICANT") _) as [flag|] eqn:E3; [|discriminate].
  simpl in H.
  destruct (py_get res (u "CHANGE_SUMMARY") _) as [text|] eqn:E4; [|discriminate].
  simpl in H.
  apply new_ChangeReport_Ok in H as (prev & txt & b & _ & _ & Hb & H0 & H1 & ->).
  exists raw, flag. simpl. repeat split; assumption.
Qed.

(** With a boolean flag, the report is significant exactly when the flag
    is set or the score exceeds the threshold. *)
Lemma build_report_boolean_flag self now qid previous current new_arts res
    report (b : bool) :
  build_report self now qid previous current new_arts res = Ok report ->
  py_get res (u "IS_SIGNIFICANT") (PyBool false) = Ok (PyBool b) ->
  is_significant report
  = b || Qgtb (significance_score report) (significance_threshold self).
Proof.
  intros H Hflag.
  apply build_report_Ok in H as (raw & flag & _ & _ & Hf & Hv & _).
  rewrite Hflag in Hf. injection Hf as <-.
  unfold py_or in Hv. destruct b; simpl in *; congruence.
Qed.

(** The outcome of [detect_changes] on its second path, once the service
    has replied. *)
Lemma detect_changes_reply self llm now q previous current content :
  let new_arts := get_new_articles current (Some previous) in
  new_arts <> [] ->
  llm (model self) (build_prompt q previous new_arts) = Ok content ->
  detect_changes self llm now q previous current
  = (let* res := parse_or_fallback (reply_text content) (length new_arts) in
     build_report self now (q_question_id q) previous current new_arts res,
     [build_prompt q previous new_arts]).
Proof.
  cbn zeta. unfold get_new_articles. intros Hne Hllm.
  rewrite detect_changes_nonempty by exact Hne.
  cbn zeta. by rewrite Hllm.
Qed.

(** C8. [get_new_articles] returns the articles of the current snapshot
    unfiltered when there is no previous snapshot, and otherwise those whose
    URL does not occur among the previous URLs, in the order of the current
    snapshot; this is the list of new articles of every report that
    [detect_changes] returns for the two snapshots. *)
Theorem get_new_articles_spec self llm now q previous current report :
  (detect_changes self llm now q previous current).1 = Ok report ->
  get_new_articles current None = articles current
  /\ get_new_articles current (Some previous)
     = spec_genuinely_new (articles current) (articles previous)
  /\ new_articles report = get_new_articles current (Some previous).
Proof.
  intros H. split; [reflexivity|]. split; [apply not_in_urls_spec|].
  unfold get_new_articles.
  destruct (not_in_urls (url_set (articles previous)) (articles current))
    as [|a l] eqn:E.
  - rewrite detect_changes_empty in H by exact E. simpl in H. by injection H as <-.
  - rewrite detect_changes_nonempty in H by congruence.
    rewrite E in H. cbn [fst] in H. cbn zeta in H.
    destruct (llm _ _) as [content|]; [|discriminate]. simpl in H.
    destruct (parse_or_fallback _ _) as [res|]; [|discriminate]. simpl in H.
    by apply build_report_Ok in H as (_ & _ & _ & _ & _ & _ & _ & _ & ->).
Qed.

Lemma get_new_articles_spec_witness :
  get_new_articles (sample_snapshot later_time [art_C; art_A; art_B]) None
  = [art_C; art_A; art_B]
  /\ get_new_articles (sample_snapshot later_time [art_C; art_A; art_B])
       (Some (sample_snapshot sample_time [art_A; art_B]))
     = spec_genuinely_new [art_C; art_A; art_B] [art_A; art_B]
  /\ [art_C]
     = get_new_articles (sample_snapshot later_time [art_C; art_A; art_B])
         (Some (sample_snapshot sample_time [art_A; art_B])).
Proof.
  apply (get_new_articles_spec sample_detector (replying reply_plain) later_time
           sample_question (sample_snapshot sample_time [art_A; art_B])
           (sample_snapshot later_time [art_C; art_A; art_B])
           (mk_ChangeReport 7 later_time (u "2025-03-01T12-30-00")
              (u "2025-03-02T12-30-00")
              (u "New articles found but analysis failed: 1 new article(s)")
              (1 # 2) true [art_C])).
  vm_compute. reflexivity.
Defined.







(** C3 at its failing input. The reply gives the score 0.9 and the flag as
    the string "false". The string is a true value for [or], so it is what
    the constructor of the report receives, and a [bool] field reads it as
    false: the report is returned with a score above the threshold (0.3)
    and [is_significant] false. *)
Theorem detect_changes_string_flag :
  exists report,
    (detect_changes sample_detector (replying reply_string_flag) later_time
       sample_question (sample_snapshot sample_time [art_A; art_B])
       (sample_snapshot later_time [art_C; art_A; art_B])).1 = Ok report
    /\ significance_score report = 9 # 10
    /\ Qgtb (significance_score report)
         (significance_threshold sample_detector) = true
    /\ is_significant report = false.
Proof.
  eexists. split; [vm_compute; reflexivity|].
  repeat split.
Qed.

(** Where the flag of the parsed (or fallback) result is a boolean, or
    absent, every returned report is significant exactly when the flag is
    set or the score exceeds the threshold. *)
Lemma detect_changes_boolean_flag self llm now q previous current content res
    report (b : bool) :
  let new_arts := get_new_articles current (Some previous) in
  new_arts <> [] ->
  llm (model self) (build_prompt q previous new_arts) = Ok content ->
  parse_or_fallback (reply_text content) (length new_arts) = Ok res ->
  py_get res (u "IS_SIGNIFICANT") (PyBool false) = Ok (PyBool b) ->
  (detect_changes self llm now q previous current).1 = Ok report ->
  is_significant report
  = b || Qgtb (significance_score report) (significance_threshold self).
Proof.
  intros new_arts Hne Hllm Hres Hflag H.
  rewrite (detect_changes_reply _ _ _ _ _ _ _ Hne Hllm) in H.
  cbn zeta in H. cbn [fst] in H. fold new_arts in H. rewrite Hres in H.
  simpl bind in H. eapply build_report_boolean_flag; eassumption.
Qed.

(** A flag that is a string spelling a false value suppresses the
    threshold: whatever the score, the report is not significant. *)
Lemma build_report_false_string self now qid previous current new_arts res
    report (s : pystr) :
  build_report self now qid previous current new_arts res = Ok report ->
  py_get res (u "IS_SIGNIFICANT") (PyBool false) = Ok (PyStr s) ->
  str_in (lower s) ["0"; "off"; "f"; "false"; "n"; "no"]%string = true ->
  is_significant report = false.
Proof.
  intros H Hflag Hs.
  apply build_report_Ok in H as (raw & flag & _ & _ & Hf & Hv & _).
  rewrite Hflag in Hf. injection Hf as <-.
  assert (Hne : s <> []) by (intros ->; vm_compute in Hs; discriminate).
  unfold py_or in Hv. destruct s as [|c s]; [congruence|].
  cbn [truthy validate_bool] in Hv. rewrite Hs in Hv. congruence.
Qed.



(** ** Persistence *)

Lemma fixed_digit_is_digit (d : Z) :
  0 <= d < 10 -> is_digit (Z.to_N (48 + d)) = true /\ Z.of_N (Z.to_N (48 + d)) - 48 = d.
Proof.
  intros H. unfold is_digit. split; [|lia].
  apply andb_true_intro. split; apply N.leb_le; lia.
Qed.

Lemma read_fixed_digits (w : nat) (z acc : Z) (rest : pystr) :
  read_digits w acc (fixed_digits w z ++ rest)
  = Some (acc * 10 ^ Z.of_nat w + z mod 10 ^ Z.of_nat w, rest).
Proof.
  revert acc. induction w as [|w IH]; intros acc.
  - simpl. rewrite Z.mod_1_r. do 2 f_equal. lia.
  - cbn [fixed_digits read_digits app].
    destruct (fixed_digit_is_digit ((z / 10 ^ Z.of_nat w) mod 10)) as [Hd Hv].
    { apply Z.mod_pos_bound. lia. }
    rewrite Hd, Hv, IH. do 2 f_equal.
    rewrite Nat2Z.inj_succ, Z.pow_succ_r by lia.
    rewrite (Z.mul_comm 10 (10 ^ Z.of_nat w)).
    rewrite (Z.rem_mul_r z (10 ^ Z.of_nat w) 10) by lia. lia.
Qed.

Lemma read_fixed_digits_small (w : nat) (z : Z) (rest : pystr) :
  0 <= z < 10 ^ Z.of_nat w ->
  read_digits w 0 (fixed_digits w z ++ rest) = Some (z, rest).
Proof.
  intros H. rewrite read_fixed_digits, Z.mod_small by exact H. reflexivity.
Qed.

Lemma in_range_true lo hi z : in_range lo hi z = true -> lo <= z <= hi.
Proof. unfold in_range. intros H. apply andb_prop in H as [H1 H2]. lia. Qed.

Lemma days_in_month_bound y m : days_in_month y m <= 31.
Proof. unfold days_in_month. repeat case_match; lia. Qed.

Lemma read_utcoffset_text (o : option Z) :
  match o with Some off => in_range (-1439) 1439 off = true | None => True end ->
  read_utcoffset (utcoffset_text o) = Some o.
Proof.
  destruct o as [off|]; [|reflexivity]. intros H. apply in_range_true in H.
  unfold utcoffset_text. destruct (Z.eqb_spec off 0) as [->|Hne]; [reflexivity|].
  assert (Hh : 0 <= Z.abs off / 60 < 10 ^ Z.of_nat 2).
  { split; [apply Z.div_pos; lia|]. apply Z.div_lt_upper_bound; lia. }
  assert (Hm : 0 <= Z.abs off mod 60 < 10 ^ Z.of_nat 2).
  { pose proof (Z.mod_pos_bound (Z.abs off) 60). lia. }
  pose proof (Z.div_mod (Z.abs off) 60) as Hdm.
  destruct (Z.ltb_spec off 0) as [Hneg|Hpos]; cbn [u app List.map list_ascii_of_string];
    unfold read_utcoffset; simpl N.eqb; cbn [orb];
    rewrite read_fixed_digits_small by exact Hh; cbn [mbind option_bind expect];
    simpl N.eqb; cbn [mbind option_bind];
    rewrite <- (app_nil_r (fixed_digits 2 (Z.abs off mod 60)));
    rewrite read_fixed_digits_small by exact Hm; cbn [mbind option_bind];
    do 2 f_equal; unfold signed; lia.
Qed.

Lemma utcoffset_text_head (o : option Z) (r : pystr) :
  utcoffset_text o <> 46%N :: r.
Proof.
  destruct o as [off|]; [|discriminate]. unfold utcoffset_text.
  destruct (Z.eqb off 0); [discriminate|].
  destruct (Z.ltb off 0); discriminate.
Qed.

Lemma parse_iso_isoformat (d : datetime) :
  valid_datetime d = true -> parse_iso (isoformat d) = Some d.
Proof.
  intros Hv. pose proof Hv as Hv'. unfold valid_datetime in Hv'. destruct d as [y mo dd h mi s us off].
  cbn [year month day hour minute second microsecond utcoffset] in Hv'.
  repeat (apply andb_prop in Hv' as [Hv' ?]).
  repeat match goal with H : in_range _ _ _ = true |- _ => apply in_range_true in H end.
  pose proof (days_in_month_bound y mo).
  unfold parse_iso, isoformat.
  cbn [year month day hour minute second microsecond utcoffset].
  rewrite read_fixed_digits_small by (simpl; lia). cbn [mbind option_bind].
  cbn [u app List.map list_ascii_of_string expect]. simpl N.eqb. cbn [mbind option_bind].
  rewrite read_fixed_digits_small by (simpl; lia). cbn [mbind option_bind expect].
  simpl N.eqb. cbn [mbind option_bind].
  rewrite read_fixed_digits_small by (simpl; lia). cbn [mbind option_bind expect].
  simpl N.eqb. cbn [mbind option_bind].
  rewrite read_fixed_digits_small by (simpl; lia). cbn [mbind option_bind expect].
  simpl N.eqb. cbn [mbind option_bind].
  rewrite read_fixed_digits_small by (simpl; lia). cbn [mbind option_bind expect].
  simpl N.eqb. cbn [mbind option_bind].
  rewrite read_fixed_digits_small by (simpl; lia). cbn [mbind option_bind].
  change (N_of_ascii ".") with 46%N.
  assert (Hus : (match (if Z.eqb us 0 then [] else 46%N :: fixed_digits 6 us) ++ utcoffset_text off with
                 | 46%N :: r => read_digits 6 0 r
                 | _ => Some (0, (if Z.eqb us 0 then [] else 46%N :: fixed_digits 6 us) ++ utcoffset_text off)
                 end) = Some (us, utcoffset_text off)).
  { destruct (Z.eqb_spec us 0) as [->|Hne].
    - cbn [app]. pose proof (utcoffset_text_head off) as Hh.
      destruct (utcoffset_text off) as [|c r]; [reflexivity|].
      destruct c as [|p]; [reflexivity|].
      repeat (destruct p as [p|p|]; try reflexivity). exfalso. by apply (Hh r).
    - cbn [app]. apply read_fixed_digits_small. simpl. lia. }
  rewrite Hus. cbn [mbind option_bind].
  rewrite read_utcoffset_text.
  2:{ destruct off; [assumption|exact I]. }
  cbn [mbind option_bind]. by rewrite Hv.
Qed.

Lemma validate_article_dump (a : NewsArticle) :
  valid_article a = true -> validate_article (dump_article a) = Ok a.
Proof.
  destruct a as [ur ti su ft pd so rs]. unfold valid_article. cbn [published_date].
  intros Hv. unfold validate_article, dump_article.
  cbn [url title summary full_text published_date source relevance_score].
  change (field _ "url") with (Ok (PyStr ur)).
  change (field _ "title") with (Ok (PyStr ti)).
  change (field _ "summary") with (Ok (PyStr su)).
  change (field _ "source") with (Ok (PyStr so)).
  change (field_default _ "full_text" PyNone) with (dump_option PyStr ft).
  change (field_default _ "published_date" PyNone)
    with (dump_option dump_datetime pd).
  change (field_default _ "relevance_score" PyNone)
    with (dump_option PyFloat rs).
  cbn [bind validate_str].
  assert (Hft : validate_optional validate_str (dump_option PyStr ft) = Ok ft)
    by (by destruct ft).
  assert (Hrs : validate_optional validate_float (dump_option PyFloat rs) = Ok rs)
    by (by destruct rs).
  assert (Hpd : validate_optional validate_datetime
                  (dump_option dump_datetime pd) = Ok pd).
  { destruct pd as [d|]; [|reflexivity]. unfold dump_option, dump_datetime.
    cbn [validate_optional validate_datetime].
    by rewrite (parse_iso_isoformat d Hv). }
  rewrite Hft, Hpd, Hrs. reflexivity.
Qed.

Lemma validate_list_dump (arts : list NewsArticle) :
  forallb valid_article arts = true ->
  validate_list validate_article (List.map dump_article arts) = Ok arts.
Proof.
  induction arts as [|a arts IH]; [reflexivity|].
  cbn [forallb List.map validate_list]. intros H.
  apply andb_prop in H as [Ha Hl].
  by rewrite (validate_article_dump a Ha), (IH Hl).
Qed.

Lemma strftime_Y (rest : pystr) (d : datetime) :
  strftime (37%N :: 89%N :: rest) d = fixed_digits 4 (year d) ++ strftime rest d.
Proof. reflexivity. Qed.

Lemma strftime_id_nonempty (d : datetime) :
  strftime (u "%Y-%m-%dT%H-%M-%S") d <> [].
Proof.
  change (u "%Y-%m-%dT%H-%M-%S") with (37%N :: 89%N :: u "-%m-%dT%H-%M-%S").
  rewrite strftime_Y. cbn [fixed_digits app]. discriminate.
Qed.

Lemma new_NewsSnapshot_id qid fetched arts query sid :
  let s := new_NewsSnapshot qid fetched arts query sid in
  new_NewsSnapshot qid fetched arts query (snapshot_id s) = s.
Proof.
  cbn zeta. unfold new_NewsSnapshot. cbn [snapshot_id].
  destruct sid as [|c r]; [|reflexivity].
  pose proof (strftime_id_nonempty fetched) as Hne.
  destruct (strftime (u "%Y-%m-%dT%H-%M-%S") fetched); [congruence|reflexivity].
Qed.

Lemma validate_snapshot_dump qid fetched arts query sid :
  let s := new_NewsSnapshot qid fetched arts query sid in
  valid_snapshot s = true -> validate_snapshot (dump_snapshot s) = Ok s.
Proof.
  intros s Hv. unfold valid_snapshot in Hv. apply andb_prop in Hv as [Hf Ha].
  pose proof (new_NewsSnapshot_id qid fetched arts query sid) as Hid.
  cbn zeta in Hid. fold s in Hid.
  unfold validate_snapshot, dump_snapshot.
  change (field _ "question_id") with (Ok (PyInt (question_id s))).
  change (field _ "fetched_at") with (Ok (dump_datetime (fetched_at s))).
  change (field _ "articles")
    with (Ok (PyList (List.map dump_article (articles s)))).
  change (field _ "search_query") with (Ok (PyStr (search_query s))).
  change (field_default _ "snapshot_id" (PyStr []))
    with (PyStr (snapshot_id s)).
  cbn [bind validate_int validate_str validate_datetime dump_datetime].
  rewrite (parse_iso_isoformat _ Hf). cbn [of_option bind].
  rewrite (validate_list_dump _ Ha). cbn [bind].
  f_equal. exact Hid.
Qed.

(** C9. A snapshot written by [_save_model] and read back by [_load_model]
    is reproduced with the same identifier and the same article URLs in the
    same order; so is the latest snapshot of a question after
    [save_news]. *)
Theorem snapshot_round_trip (self : Storage) (fs : files) (path : pystr)
    qid fetched arts query sid :
  let s := new_NewsSnapshot qid fetched arts query sid in
  valid_snapshot s = true ->
  exists s',
    _load_model (_save_model fs path (dump_snapshot s)) path validate_snapshot
    = Ok (Some s')
    /\ load_latest_news self (save_news self fs qid s) qid = Ok (Some s')
    /\ snapshot_id s' = snapshot_id s
    /\ url <$> articles s' = url <$> articles s.
Proof.
  intros s Hv. exists s.
  pose proof (validate_snapshot_dump qid fetched arts query sid Hv) as Hd.
  fold s in Hd.
  unfold load_latest_news, save_news, _load_model, _save_model.
  rewrite !lookup_insert_eq, Hd. by repeat split.
Qed.

Lemma snapshot_round_trip_witness :
  let s := sample_snapshot later_time [art_C; art_A; art_B] in
  exists s',
    _load_model (_save_model ∅ (u "data/news/7/latest.json") (dump_snapshot s))
      (u "data/news/7/latest.json") validate_snapshot
    = Ok (Some s')
    /\ load_latest_news sample_storage (save_news sample_storage ∅ 7 s) 7
       = Ok (Some s')
    /\ snapshot_id s' = snapshot_id s
    /\ url <$> articles s' = url <$> articles s.
Proof.
  apply (snapshot_round_trip sample_storage ∅ (u "data/news/7/latest.json")
           7 later_time [art_C; art_A; art_B]
           (u "Will it rain?. Resolves yes if it rains.") []).
  vm_compute. reflexivity.
Defined.

(** ** Orchestrator *)

(** The report of a first run with articles is never built. *)
Lemma first_run_report_raises now q merged :
  articles merged <> [] -> first_run_report now q merged = Raise ValidationError.
Proof.
  intros H. unfold first_run_report. destruct (articles merged); [congruence|].
  reflexivity.
Qed.

(** On every first run that fetches at least one article,
    [process_question] returns [None] and stores nothing. *)
Lemma first_run_with_articles_returns_None q news_agg detector llm now storage fs new_news :
  load_latest_news storage fs (q_question_id q) = Ok None ->
  news_agg q None = Ok new_news ->
  articles new_news <> [] ->
  process_question q news_agg detector llm now storage fs = (None, fs, []).
Proof.
  intros Hload Hfetch Hne. unfold process_question, process_question_body.
  rewrite Hload. cbn [fmap option_fmap option_map]. rewrite Hfetch.
  cbn [merge_with_previous]. rewrite (first_run_report_raises _ _ _ Hne).
  reflexivity.
Qed.

(** C1 at its failing input. On a first run (no stored snapshot) whose
    fetch returns three articles, the report constructor is given [None] as
    the previous snapshot identifier, a field declared [str]: it raises a
    validation error, [process_question] catches it and returns [None], and
    nothing is stored; no prompt is submitted. With no article fetched, the
    update carries no report and the snapshot is stored. *)
Theorem process_question_first_run :
  first_run_report later_time sample_question
    (sample_snapshot later_time [art_A; art_B; art_C])
  = Raise ValidationError
  /\ process_question sample_question
       (fetching later_time [art_A; art_B; art_C])
       sample_detector (replying reply_plain) later_time sample_storage ∅
     = (None, ∅, [])
  /\ process_question sample_question (fetching later_time [])
       sample_detector (replying reply_plain) later_time sample_storage ∅
     = (Some (mk_NewsUpdate sample_question (sample_snapshot later_time [])
                None),
        save_news sample_storage ∅ 7 (sample_snapshot later_time []), []).
Proof.
  split; [reflexivity|]. split.
  - apply (first_run_with_articles_returns_None _ _ _ _ _ _ _
             (sample_snapshot later_time [art_A; art_B; art_C]));
      [reflexivity|reflexivity|discriminate].
  - reflexivity.
Qed.


(** ** Further properties of the merge *)

Lemma not_in_urls_all (urls : gset pystr) (arts : list NewsArticle) :
  (forall a, a ∈ arts -> url a ∉ urls) -> not_in_urls urls arts = arts.
Proof.
  unfold not_in_urls. induction arts as [|a arts IH]; intros H; [reflexivity|].
  rewrite filter_cons, decide_True by (apply H; by left).
  f_equal. apply IH. intros b Hb. apply H. by right.
Qed.

Lemma not_in_urls_app (urls : gset pystr) (l k : list NewsArticle) :
  not_in_urls urls (l ++ k) = not_in_urls urls l ++ not_in_urls urls k.
Proof. unfold not_in_urls. apply filter_app. Qed.

Lemma not_in_urls_passes (urls : gset pystr) (arts : list NewsArticle) (a : NewsArticle) :
  a ∈ not_in_urls urls arts -> url a ∉ urls.
Proof. unfold not_in_urls. intros H. by apply list_elem_of_filter in H as [H _]. Qed.

Lemma url_in_url_set (arts : list NewsArticle) (a : NewsArticle) :
  a ∈ arts -> url a ∈ url_set arts.
Proof.
  intros H. unfold url_set. apply elem_of_list_to_set, list_elem_of_fmap.
  by exists a.
Qed.

(** The genuinely new articles of a prefix of "new, then previous". *)
Lemma not_in_urls_take_combined (previous new_arts : list NewsArticle) (k : nat) :
  let fresh := not_in_urls (url_set previous) new_arts in
  not_in_urls (url_set previous) (take k (fresh ++ previous)) = take k fresh.
Proof.
  intros fresh. rewrite take_app, not_in_urls_app.
  rewrite (not_in_urls_all _ (take k fresh)).
  2:{ intros a Ha. apply (not_in_urls_passes _ new_arts).
      eapply elem_of_sublist; [exact Ha|apply sublist_take]. }
  rewrite (not_in_urls_nil _ (take _ previous)); [by rewrite app_nil_r|].
  intros a Ha. apply url_in_url_set.
  eapply elem_of_sublist; [exact Ha|apply sublist_take].
Qed.

Lemma get_new_articles_merged (new_snapshot previous : NewsSnapshot) (max_articles : Z) :
  0 <= max_articles ->
  get_new_articles (merge_with_previous new_snapshot (Some previous) max_articles)
    (Some previous)
  = take (Z.to_nat max_articles) (get_new_articles new_snapshot (Some previous)).
Proof.
  intros Hm. unfold merge_with_previous, get_new_articles.
  rewrite new_NewsSnapshot_articles, slice_to_nonneg by exact Hm.
  apply not_in_urls_take_combined.
Qed.

Lemma take_take_app {A} (k : nat) (l p : list A) :
  take k (take k l ++ p) = take k (l ++ p).
Proof.
  rewrite !take_app, take_take, Nat.min_id, length_take.
  destruct (decide (k <= length l)%nat) as [Hle|Hgt].
  - replace (k - length l)%nat with 0%nat by lia.
    replace (k - k `min` length l)%nat with 0%nat by lia. reflexivity.
  - by replace (k `min` length l)%nat with (length l) by lia.
Qed.

Lemma url_set_app (l k : list NewsArticle) :
  url_set (l ++ k) = url_set l ∪ url_set k.
Proof. unfold url_set. rewrite fmap_app. apply list_to_set_app_L. Qed.

Lemma elem_of_url_set (x : pystr) (arts : list NewsArticle) :
  x ∈ url_set arts <-> exists a, x = url a /\ a ∈ arts.
Proof. unfold url_set. by rewrite elem_of_list_to_set, list_elem_of_fmap. Qed.

Lemma url_set_not_in_urls (previous new_arts : list NewsArticle) :
  url_set (not_in_urls (url_set previous) new_arts) ∪ url_set previous
  = url_set new_arts ∪ url_set previous.
Proof.
  apply set_eq. intros x. rewrite !elem_of_union. split.
  - intros [H|H]; [left|by right].
    apply elem_of_url_set in H as (a & -> & Ha). apply elem_of_url_set.
    exists a. split; [reflexivity|].
    unfold not_in_urls in Ha. by apply list_elem_of_filter in Ha as [_ Ha].
  - intros [H|H]; [|by right].
    destruct (decide (x ∈ url_set previous)) as [Hin|Hn]; [by right|left].
    apply elem_of_url_set in H as (a & -> & Ha). apply elem_of_url_set.
    exists a. split; [reflexivity|]. unfold not_in_urls. by apply list_elem_of_filter.
Qed.

Lemma url_set_sublist (l k : list NewsArticle) :
  l `sublist_of` k -> url_set l ⊆ url_set k.
Proof.
  intros H x. rewrite !elem_of_url_set.
  intros (a & -> & Ha). exists a. split; [reflexivity|]. by eapply elem_of_sublist.
Qed.

Lemma sublist_slice_to {A} (l : list A) (n : Z) : slice_to l n `sublist_of` l.
Proof. unfold slice_to. destruct (Z.leb 0 n); apply sublist_take. Qed.

(** X1. For a non-negative bound, the merged snapshot never holds more
    than [max_articles] articles: it holds the smaller of the bound and the
    number of genuinely new articles plus the number of previous ones. *)
Theorem merge_length_bound (new_snapshot previous : NewsSnapshot) (max_articles : Z) :
  0 <= max_articles ->
  let merged := merge_with_previous new_snapshot (Some previous) max_articles in
  Z.of_nat (length (articles merged)) <= max_articles
  /\ Z.of_nat (length (articles merged))
     = Z.min max_articles
         (Z.of_nat (length (get_new_articles new_snapshot (Some previous))
                    + length (articles previous))).
Proof.
  intros Hm merged. subst merged. unfold merge_with_previous, get_new_articles.
  rewrite new_NewsSnapshot_articles, slice_to_nonneg by exact Hm.
  rewrite length_take, length_app. lia.
Qed.

Lemma merge_length_bound_witness :
  let new_snapshot := sample_snapshot later_time [art_B; art_C] in
  let previous := sample_snapshot sample_time [art_A; art_B] in
  let merged := merge_with_previous new_snapshot (Some previous) 2 in
  Z.of_nat (length (articles merged)) <= 2
  /\ Z.of_nat (length (articles merged))
     = Z.min 2
         (Z.of_nat (length (get_new_articles new_snapshot (Some previous))
                    + length (articles previous))).
Proof.
  apply (merge_length_bound (sample_snapshot later_time [art_B; art_C])
           (sample_snapshot sample_time [art_A; art_B]) 2).
  lia.
Defined.

(** X2. What the classifier is given as new after a merge: the genuinely
    new articles of the merged snapshot, relative to the previous one, are
    the first [max_articles] genuinely new articles of the fetched
    snapshot, and the merged list is these followed by the first previous
    articles that the bound still admits; a previous article that the merge
    carries over never counts as new. *)
Theorem get_new_articles_after_merge (new_snapshot previous : NewsSnapshot)
    (max_articles : Z) :
  0 <= max_articles ->
  let fresh := get_new_articles new_snapshot (Some previous) in
  let merged := merge_with_previous new_snapshot (Some previous) max_articles in
  get_new_articles merged (Some previous) = take (Z.to_nat max_articles) fresh
  /\ articles merged
     = take (Z.to_nat max_articles) fresh
       ++ take (Z.to_nat max_articles - length fresh) (articles previous).
Proof.
  intros Hm fresh merged. split; [by apply get_new_articles_merged|].
  subst merged fresh. unfold merge_with_previous, get_new_articles.
  rewrite new_NewsSnapshot_articles, slice_to_nonneg by exact Hm.
  apply take_app.
Qed.

Lemma get_new_articles_after_merge_witness :
  let new_snapshot := sample_snapshot later_time [art_B; art_C] in
  let previous := sample_snapshot sample_time [art_A; art_B] in
  let fresh := get_new_articles new_snapshot (Some previous) in
  let merged := merge_with_previous new_snapshot (Some previous) 50 in
  get_new_articles merged (Some previous) = take (Z.to_nat 50) fresh
  /\ articles merged
     = take (Z.to_nat 50) fresh
       ++ take (Z.to_nat 50 - length fresh) (articles previous).
Proof.
  apply (get_new_articles_after_merge (sample_snapshot later_time [art_B; art_C])
           (sample_snapshot sample_time [art_A; art_B]) 50).
  lia.
Defined.

(** X3. Merging is idempotent: merging the merged snapshot once more with
    the same previous snapshot and the same non-negative bound gives the
    merged snapshot again. *)
Theorem merge_idempotent (new_snapshot previous : NewsSnapshot) (max_articles : Z) :
  0 <= max_articles ->
  let merged := merge_with_previous new_snapshot (Some previous) max_articles in
  merge_with_previous merged (Some previous) max_articles = merged.
Proof.
  intros Hm merged.
  pose proof (get_new_articles_merged new_snapshot previous max_articles Hm) as Hnew.
  fold merged in Hnew. unfold get_new_articles in Hnew.
  unfold merge_with_previous at 1. rewrite Hnew.
  subst merged. unfold merge_with_previous.
  rewrite !slice_to_nonneg by exact Hm.
  cbn [question_id fetched_at search_query new_NewsSnapshot].
  by rewrite take_take_app.
Qed.

Lemma merge_idempotent_witness :
  let new_snapshot := sample_snapshot later_time [art_B; art_C] in
  let previous := sample_snapshot sample_time [art_A; art_B] in
  let merged := merge_with_previous new_snapshot (Some previous) 2 in
  merge_with_previous merged (Some previous) 2 = merged.
Proof.
  apply (merge_idempotent (sample_snapshot later_time [art_B; art_C])
           (sample_snapshot sample_time [art_A; art_B]) 2).
  lia.
Defined.

(** X4. The merge invents no article: for every bound, each URL of the
    merged snapshot is a URL of the new or of the previous snapshot; and
    when the bound leaves room for all genuinely new and all previous
    articles, the merged snapshot has exactly the URLs of both. *)
Theorem merge_url_set (new_snapshot previous : NewsSnapshot) (max_articles : Z) :
  let merged := merge_with_previous new_snapshot (Some previous) max_articles in
  url_set (articles merged)
  ⊆ url_set (articles new_snapshot) ∪ url_set (articles previous)
  /\ (Z.of_nat (length (get_new_articles new_snapshot (Some previous))
                + length (articles previous)) <= max_articles ->
      url_set (articles merged)
      = url_set (articles new_snapshot) ∪ url_set (articles previous)).
Proof.
  intros merged. subst merged. unfold merge_with_previous, get_new_articles.
  rewrite new_NewsSnapshot_articles. split.
  - rewrite <- url_set_not_in_urls, <- url_set_app.
    apply url_set_sublist, sublist_slice_to.
  - intros Hroom. rewrite slice_to_nonneg by lia.
    rewrite take_ge by (rewrite length_app; lia).
    by rewrite url_set_app, url_set_not_in_urls.
Qed.

(** X5. The search query starts with the title of the question, is the
    title alone exactly when there are no resolution criteria, and is never
    more than 202 characters longer than the title. *)
Theorem build_search_query_bound (q : QuestionMetadata) :
  q_title q `prefix_of` _build_search_query q
  /\ (length (_build_search_query q) <= length (q_title q) + 202)%nat
  /\ (_build_search_query q = q_title q <-> q_resolution_criteria q = []).
Proof.
  unfold _build_search_query. destruct (q_resolution_criteria q) as [|c r] eqn:E.
  - cbn [join]. split; [done|]. split; [lia|done].
  - cbn [app join]. split; [by apply prefix_app_r|]. split.
    + rewrite !length_app. unfold str_prefix. rewrite length_take.
      change (length (u ". ")) with 2%nat. lia.
    + split; [|discriminate]. intros H.
      apply (f_equal (@length N)) in H. rewrite !length_app in H.
      change (length (u ". ")) with 2%nat in H. lia.
Qed.

(** ** Further properties of the store *)

Lemma parse_iso_valid (s : pystr) (d : datetime) :
  parse_iso s = Some d -> valid_datetime d = true.
Proof.
  unfold parse_iso. intros H.
  repeat match type of H with
         | (?m ≫= _) = Some _ =>
             let E := fresh "E" in
             destruct m as [[]|] eqn:E; cbn [mbind option_bind] in H; [|discriminate]
         | (?m ≫= _) = Some _ =>
             let E := fresh "E" in
             destruct m eqn:E; cbn [mbind option_bind] in H; [|discriminate]
         end.
  cbn zeta in H.
  match type of H with
  | (if ?b then _ else _) = _ => destruct b eqn:Ev; [|discriminate]
  end.
  by injection H as <-.
Qed.

Lemma validate_article_valid (v : pyval) (a : NewsArticle) :
  validate_article v = Ok a -> valid_article a = true.
Proof.
  unfold validate_article. destruct v; try discriminate. intros H.
  repeat match type of H with
         | bind ?r _ = Ok _ =>
             let E := fresh "E" in
             destruct r eqn:E; cbn [bind] in H; [|discriminate]
         end.
  injection H as <-. unfold valid_article. cbn [published_date].
  match goal with
  | E : validate_optional validate_datetime _ = Ok ?o |- _ =>
      destruct o as [dt|]; [|reflexivity];
      unfold validate_optional in E;
      destruct (field_default _ "published_date" PyNone); try discriminate
  end.
  all: cbn [validate_datetime bind] in *; try discriminate.
  destruct (parse_iso s) as [dt'|] eqn:Ep; [|discriminate].
  cbn [of_option bind] in *. apply parse_iso_valid in Ep. congruence.
Qed.

Lemma validate_list_valid (l : list pyval) (arts : list NewsArticle) :
  validate_list validate_article l = Ok arts -> forallb valid_article arts = true.
Proof.
  revert arts. induction l as [|v l IH]; intros arts H; cbn [validate_list] in H.
  - by injection H as <-.
  - destruct (validate_article v) as [a|] eqn:Ea; [|discriminate]. cbn [bind] in H.
    destruct (validate_list validate_article l) as [others|] eqn:El; [|discriminate].
    cbn [bind] in H. injection H as <-. cbn [forallb].
    by rewrite (validate_article_valid _ _ Ea), (IH _ eq_refl).
Qed.

Lemma strftime_id_cons (d : datetime) :
  exists c r, strftime (u "%Y-%m-%dT%H-%M-%S") d = c :: r.
Proof.
  pose proof (strftime_id_nonempty d).
  destruct (strftime (u "%Y-%m-%dT%H-%M-%S") d) as [|c r]; [congruence|by eauto].
Qed.

(** A snapshot that validation returns has valid timestamps and a
    non-empty identifier. *)
Lemma validate_snapshot_valid (v : pyval) (s : NewsSnapshot) :
  validate_snapshot v = Ok s -> valid_snapshot s = true /\ snapshot_id s <> [].
Proof.
  unfold validate_snapshot. destruct v; try discriminate. intros H.
  repeat match type of H with
         | bind ?r _ = Ok _ =>
             let E := fresh "E" in
             destruct r eqn:E; cbn [bind] in H; [|discriminate]
         end.
  injection H as <-. split.
  - unfold valid_snapshot, new_NewsSnapshot. cbn [fetched_at articles].
    apply andb_true_intro. split.
    + match goal with
      | E : validate_datetime ?x = Ok _ |- _ =>
          unfold validate_datetime in E; destruct x; try discriminate;
          destruct (parse_iso s) eqn:Ep; [|discriminate];
          cbn [of_option] in E; injection E as <-; by apply parse_iso_valid in Ep
      end.
    + match goal with
      | E : match ?x with PyList _ => _ | _ => _ end = Ok _ |- _ =>
          destruct x; try discriminate; by apply validate_list_valid in E
      end.
  - unfold new_NewsSnapshot. cbn [snapshot_id].
    match goal with |- match ?x with [] => _ | _ => _ end <> _ => destruct x end;
      [|discriminate].
    apply strftime_id_nonempty.
Qed.

(** The round trip of every snapshot with valid timestamps and a non-empty
    identifier. *)
Lemma validate_dump_snapshot (s : NewsSnapshot) :
  valid_snapshot s = true -> snapshot_id s <> [] ->
  validate_snapshot (dump_snapshot s) = Ok s.
Proof.
  intros Hv Hid.
  assert (Hs : s = new_NewsSnapshot (question_id s) (fetched_at s) (articles s)
                     (search_query s) (snapshot_id s)).
  { destruct s as [qid f a q sid]. cbn. unfold new_NewsSnapshot.
    cbn in Hid. destruct sid; [congruence|reflexivity]. }
  rewrite Hs. apply validate_snapshot_dump. by rewrite <- Hs.
Qed.

Lemma load_after_save_news (self : Storage) (fs : files) (qid : Z) (s : NewsSnapshot) :
  valid_snapshot s = true -> snapshot_id s <> [] ->
  load_latest_news self (save_news self fs qid s) qid = Ok (Some s).
Proof.
  intros Hv Hid. unfold load_latest_news, save_news, _load_model, _save_model.
  by rewrite lookup_insert_eq, (validate_dump_snapshot s Hv Hid).
Qed.

Lemma load_latest_news_valid (self : Storage) (fs : files) (qid : Z) (s : NewsSnapshot) :
  load_latest_news self fs qid = Ok (Some s) ->
  valid_snapshot s = true /\ snapshot_id s <> [].
Proof.
  unfold load_latest_news, _load_model.
  destruct (fs !! latest_path self qid) as [doc|]; [|discriminate].
  destruct (validate_snapshot doc) as [s'|] eqn:E; [|discriminate].
  cbn [bind]. intros H. injection H as <-. exact (validate_snapshot_valid _ _ E).
Qed.

Lemma forallb_sublist {A} (f : A -> bool) (l k : list A) :
  l `sublist_of` k -> forallb f k = true -> forallb f l = true.
Proof.
  intros Hs Hk. apply forallb_forall. intros x Hx.
  apply (proj1 (forallb_forall f k) Hk). apply list_elem_of_In.
  eapply elem_of_sublist; [|exact Hs]. by apply list_elem_of_In.
Qed.

Lemma merge_valid (new_snapshot : NewsSnapshot) (previous : option NewsSnapshot) (m : Z) :
  valid_snapshot new_snapshot = true -> snapshot_id new_snapshot <> [] ->
  match previous with Some p => valid_snapshot p = true | None => True end ->
  let merged := merge_with_previous new_snapshot previous m in
  valid_snapshot merged = true /\ snapshot_id merged <> [].
Proof.
  intros Hn Hid Hp merged. subst merged.
  destruct previous as [p|]; [|by split].
  unfold merge_with_previous. split.
  - unfold valid_snapshot in *. cbn [new_NewsSnapshot fetched_at articles].
    apply andb_prop in Hn as [Hf Ha]. apply andb_prop in Hp as [_ Hpa].
    apply andb_true_intro. split; [exact Hf|].
    eapply forallb_sublist; [apply sublist_slice_to|].
    rewrite forallb_app. apply andb_true_intro. split; [|exact Hpa].
    eapply forallb_sublist; [|exact Ha]. unfold not_in_urls. apply sublist_filter.
  - unfold new_NewsSnapshot. cbn [snapshot_id]. apply strftime_id_nonempty.
Qed.

(** X6. A snapshot that validation accepts is a fixed point of the store:
    its document validates to the same snapshot, so that saving it and
    loading the latest record returns it unchanged. *)
Theorem load_save_load (self : Storage) (fs : files) (qid : Z) (v : pyval)
    (s : NewsSnapshot) :
  validate_snapshot v = Ok s ->
  validate_snapshot (dump_snapshot s) = Ok s
  /\ load_latest_news self (save_news self fs qid s) qid = Ok (Some s).
Proof.
  intros H. destruct (validate_snapshot_valid _ _ H) as [Hv Hid].
  split; [by apply validate_dump_snapshot|by apply load_after_save_news].
Qed.

Lemma load_save_load_witness :
  let s := sample_snapshot sample_time [art_A; art_B] in
  validate_snapshot (dump_snapshot s) = Ok s
  /\ load_latest_news sample_storage (save_news sample_storage ∅ 7 s) 7
     = Ok (Some s).
Proof.
  apply (load_save_load sample_storage ∅ 7
           (dump_snapshot (sample_snapshot sample_time [art_A; art_B]))).
  vm_compute. reflexivity.
Defined.

(** *** Names of the stored records *)






(** *** [cleanup_old_snapshots] *)

Lemma strptime_id_naive (text : pystr) (d : datetime) :
  strptime_id text = Some d -> utcoffset d = None.
Proof.
  unfold strptime_id. intros H.
  repeat match type of H with
         | (?m ≫= _) = Some _ =>
             let E := fresh "E" in
             destruct m as [[]|] eqn:E; cbn [mbind option_bind] in H; [|discriminate]
         | (?m ≫= _) = Some _ =>
             let E := fresh "E" in
             destruct m eqn:E; cbn [mbind option_bind] in H; [|discriminate]
         end.
  match type of H with match ?s with [] => _ | _ => _ end = _ => destruct s end;
    [|discriminate].
  cbn zeta in H.
  match type of H with
  | (if ?b then _ else _) = _ => destruct b; [|discriminate]
  end.
  by injection H as <-.
Qed.

Lemma cleanup_loop_aware (cutoff : datetime) (dir : pystr) (names : list pystr)
    (fs : files) (removed : Z) :
  utcoffset cutoff <> None ->
  cleanup_loop cutoff dir names fs removed
  = (if existsb dated names then Raise TypeError else Ok removed, fs).
Proof.
  intros Hc. induction names as [|name rest IH]; [reflexivity|].
  cbn [cleanup_loop existsb]. unfold dated at 1.
  case_bool_decide as Hl; [exact IH|].
  destruct (strptime_id (stem name)) as [file_dt|] eqn:Ep; [|exact IH].
  unfold dt_lt. rewrite (strptime_id_naive _ _ Ep).
  destruct (utcoffset cutoff); [reflexivity|congruence].
Qed.


Lemma after_prefix_Some (p s r : pystr) : after_prefix p s = Some r -> s = p ++ r.
Proof.
  revert s. induction p as [|c p IH]; intros s H.
  - by injection H as <-.
  - destruct s as [|b s]; [discriminate|]. cbn [after_prefix] in H.
    destruct (N.eqb c b) eqn:E; [|discriminate].
    apply N.eqb_eq in E as <-. cbn [app]. f_equal. by apply IH.
Qed.


Lemma before_suffix_Some (suffix name s : pystr) :
  before_suffix suffix name = Some s -> name = s ++ suffix.
Proof.
  unfold before_suffix. destruct (after_prefix _ _) as [r|] eqn:E; [|discriminate].
  cbn [option_map]. intros H. injection H as <-. apply after_prefix_Some in E.
  apply (f_equal (@rev N)) in E. rewrite rev_involutive in E.
  by rewrite E, rev_app_distr, rev_involutive.
Qed.












(** X9. [cleanup_old_snapshots] removes nothing. Its cutoff carries an
    offset and the time read from a file name carries none, so the first
    comparison raises [TypeError]: the call raises when the directory of the
    question lists a dated record, returns 0 otherwise, and in both cases
    leaves every file in place. *)
Theorem cleanup_old_snapshots_removes_nothing (self : Storage) (fs : files)
    (qid : Z) (cutoff : datetime) :
  utcoffset cutoff <> None ->
  let dir := path_join (news_dir self) (str_of_Z qid) in
  cleanup_old_snapshots self fs qid cutoff
  = (if existsb dated (glob_json fs dir) then Raise TypeError else Ok 0, fs).
Proof. intros Hc dir. by apply cleanup_loop_aware. Qed.

Lemma cleanup_old_snapshots_removes_nothing_witness :
  let dir := path_join (news_dir sample_storage) (str_of_Z 8) in
  cleanup_old_snapshots sample_storage stored_files 8 later_time
  = (if existsb dated (glob_json stored_files dir) then Raise TypeError else Ok 0,
     stored_files).
Proof.
  apply (cleanup_old_snapshots_removes_nothing sample_storage stored_files 8
           later_time).
  discriminate.
Defined.



(** *** The directories of the questions *)


Lemma u_inj (s t : string) : u s = u t -> s = t.
Proof.
  unfold u. intros H.
  rewrite <- (string_of_list_ascii_of_string s), <- (string_of_list_ascii_of_string t).
  f_equal. revert H. generalize (list_ascii_of_string s) (list_ascii_of_string t).
  induction l as [|a l IH]; intros [|b k] H; try discriminate; [reflexivity|].
  cbn [List.map] in H. injection H as Hab Hlk. f_equal; [|by apply IH].
  by rewrite <- (ascii_N_embedding a), <- (ascii_N_embedding b), Hab.
Qed.

Lemma to_int_not_nil (z : Z) :
  Z.to_int z <> Decimal.Pos Decimal.Nil /\ Z.to_int z <> Decimal.Neg Decimal.Nil.
Proof.
  pose proof (DecimalZ.to_of (Z.to_int z)) as H. rewrite DecimalZ.of_to in H.
  destruct (Z.to_int z) as [d|d]; cbn [Decimal.norm] in H.
  - split; [|discriminate]. intros E. injection E as ->. discriminate.
  - split; [discriminate|]. intros E. injection E as ->. discriminate.
Qed.

Lemma str_of_Z_inj (a b : Z) : str_of_Z a = str_of_Z b -> a = b.
Proof.
  unfold str_of_Z. intros H. apply u_inj in H.
  destruct (to_int_not_nil a) as [Ha1 Ha2], (to_int_not_nil b) as [Hb1 Hb2].
  pose proof (NilZero.isi _ Ha1 Ha2) as Ia. rewrite H, (NilZero.isi _ Hb1 Hb2) in Ia.
  injection Ia as Ia. by rewrite <- (DecimalZ.of_to a), <- (DecimalZ.of_to b), Ia.
Qed.

Lemma string_of_uint_no_slash (d : Decimal.uint) :
  existsb (N.eqb 47) (u (NilEmpty.string_of_uint d)) = false.
Proof.
  induction d; [reflexivity|..];
    cbn [NilEmpty.string_of_uint]; unfold u in *;
    cbn [list_ascii_of_string List.map existsb]; rewrite IHd; reflexivity.
Qed.

Lemma str_of_Z_no_slash (z : Z) : existsb (N.eqb 47) (str_of_Z z) = false.
Proof.
  unfold str_of_Z.
  destruct (Z.to_int z) as [d|d]; cbn [NilZero.string_of_int NilZero.string_of_uint].
  - destruct d; try apply string_of_uint_no_slash; reflexivity.
  - unfold u. cbn [list_ascii_of_string List.map existsb].
    destruct d; try apply string_of_uint_no_slash; reflexivity.
Qed.

(** Where two paths split at their first separator. *)
Lemma first_separator (a b x y : pystr) :
  existsb (N.eqb 47) a = false -> existsb (N.eqb 47) b = false ->
  a ++ u "/" ++ x = b ++ u "/" ++ y -> a = b /\ x = y.
Proof.
  revert b. induction a as [|c a IH]; intros [|c' b] Ha Hb H.
  - split; [reflexivity|]. by injection H.
  - exfalso. injection H as <- _. cbn [existsb] in Hb. discriminate.
  - exfalso. injection H as -> _. cbn [existsb] in Ha. discriminate.
  - injection H as <- H. cbn [existsb] in Ha, Hb.
    apply orb_false_elim in Ha as [_ Ha]. apply orb_false_elim in Hb as [_ Hb].
    destruct (IH b Ha Hb H) as [-> ->]. by split.
Qed.

Lemma question_dir_inj (self : Storage) (qid qid' : Z) (x y : pystr) :
  path_join (path_join (news_dir self) (str_of_Z qid)) x
  = path_join (path_join (news_dir self) (str_of_Z qid')) y ->
  qid = qid' /\ x = y.
Proof.
  unfold path_join. rewrite <- !app_assoc. intros H.
  apply app_inv_head in H. change (u "/" ++ ?z) with (47%N :: z) in H.
  injection H as H.
  destruct (first_separator _ _ _ _ (str_of_Z_no_slash qid) (str_of_Z_no_slash qid') H)
    as [Hq Hx].
  split; [by apply str_of_Z_inj|exact Hx].
Qed.

Lemma save_news_other_question (self : Storage) (fs : files) (qid qid' : Z)
    (s : NewsSnapshot) (name : pystr) :
  qid <> qid' ->
  save_news self fs qid s !! path_join (path_join (news_dir self) (str_of_Z qid')) name
  = fs !! path_join (path_join (news_dir self) (str_of_Z qid')) name.
Proof.
  intros Hne. unfold save_news, _save_model, latest_path.
  rewrite !lookup_insert_ne; [reflexivity| |]; intros E;
    apply question_dir_inj in E as [E _]; congruence.
Qed.

(** ** Further properties of the change classifier *)

(** *** What the group of a pattern holds *)






(** *** A text that opens with a brace decodes to an object *)














(** X13. A reply without content ([None] or the empty string) is read as
    the empty object: the report has score 0, the summary "No summary
    available.", lists the genuinely new articles, and is significant only
    if the threshold is negative. *)
Theorem detect_changes_empty_reply self llm now q previous current content :
  let new_arts := get_new_articles current (Some previous) in
  new_arts <> [] ->
  llm (model self) (build_prompt q previous new_arts) = Ok content ->
  content = None \/ content = Some [] ->
  (detect_changes self llm now q previous current).1
  = Ok (mk_ChangeReport (q_question_id q) now (snapshot_id previous)
          (snapshot_id current) (u "No summary available.") 0
          (Qgtb 0 (significance_threshold self)) new_arts).
Proof.
  intros new_arts Hne Hllm Hc.
  rewrite (detect_changes_reply _ _ _ _ _ _ _ Hne Hllm).
  cbn zeta. cbn [fst]. fold new_arts.
  assert (Ht : reply_text content = u "{}") by (by destruct Hc as [-> | ->]).
  rewrite Ht.
  change (parse_or_fallback (u "{}") (length new_arts)) with (Ok (PyDict [])).
  cbn [bind]. unfold build_report. cbn [py_get dict_lookup bind py_float].
  unfold py_or. cbn [truthy]. unfold new_ChangeReport.
  cbn [validate_str bind validate_bool]. reflexivity.
Qed.

Lemma detect_changes_empty_reply_witness :
  let previous := sample_snapshot sample_time [art_A; art_B] in
  let current := sample_snapshot later_time [art_C; art_A; art_B] in
  (detect_changes sample_detector silent later_time sample_question
     previous current).1
  = Ok (mk_ChangeReport (q_question_id sample_question) later_time
          (snapshot_id previous) (snapshot_id current)
          (u "No summary available.") 0
          (Qgtb 0 (significance_threshold sample_detector))
          (get_new_articles current (Some previous))).
Proof.
  apply (detect_changes_empty_reply sample_detector silent later_time
           sample_question (sample_snapshot sample_time [art_A; art_B])
           (sample_snapshot later_time [art_C; art_A; art_B]) None).
  - vm_compute. discriminate.
  - reflexivity.
  - by left.
Defined.

(** ** Further properties of the orchestrator *)

(** What a successful run tells. *)
Lemma process_question_Some q news_agg detector llm now storage fs update fs' prompts :
  process_question q news_agg detector llm now storage fs
  = (Some update, fs', prompts) ->
  exists previous new_news,
    load_latest_news storage fs (q_question_id q) = Ok previous
    /\ news_agg q (fetched_at <$> previous) = Ok new_news
    /\ news_snapshot update
       = merge_with_previous new_news previous default_max_articles
    /\ question update = q
    /\ fs' = save_news storage fs (q_question_id q) (news_snapshot update).
Proof.
  unfold process_question, process_question_body. intros H.
  destruct (load_latest_news storage fs (q_question_id q)) as [previous|];
    [|discriminate].
  destruct (news_agg q (fetched_at <$> previous)) as [new_news|] eqn:Ef;
    [|discriminate].
  exists previous, new_news.
  destruct previous as [p|].
  - destruct (detect_changes detector llm now q p _) as [[cr|] ps];
      cbn [bind] in H; [|discriminate].
    injection H as <- <- <-. by repeat split.
  - destruct (first_run_report now q _) as [cr|]; cbn [bind] in H; [|discriminate].
    injection H as <- <- <-. by repeat split.
Qed.

Lemma load_latest_news_other (self : Storage) (fs : files) (qid qid' : Z)
    (s : NewsSnapshot) :
  qid <> qid' ->
  load_latest_news self (save_news self fs qid s) qid' = load_latest_news self fs qid'.
Proof.
  intros Hne. unfold load_latest_news, _load_model, latest_path.
  by rewrite save_news_other_question.
Qed.

Lemma process_question_other q news_agg detector llm now storage fs r fs' prompts
    (qid' : Z) :
  process_question q news_agg detector llm now storage fs = (r, fs', prompts) ->
  q_question_id q <> qid' ->
  load_latest_news storage fs' qid' = load_latest_news storage fs qid'.
Proof.
  intros H Hne. destruct r as [update|].
  - apply process_question_Some in H as (_ & _ & _ & _ & _ & _ & ->).
    by apply load_latest_news_other.
  - unfold process_question in H.
    destruct (process_question_body _ _ _ _ _ _ _) as [[[u0 f0]|e] ps];
      [discriminate|]. by injection H as <- <-.
Qed.

Lemma process_question_saved q news_agg detector llm now storage fs update fs' prompts :
  (forall since s, news_agg q since = Ok s ->
                   valid_snapshot s = true /\ snapshot_id s <> []) ->
  process_question q news_agg detector llm now storage fs
  = (Some update, fs', prompts) ->
  question update = q
  /\ load_latest_news storage fs' (q_question_id q)
     = Ok (Some (news_snapshot update)).
Proof.
  intros Hfetch H.
  apply process_question_Some in H as (previous & new_news & Hl & Hf & Hm & Hq & ->).
  split; [exact Hq|].
  destruct (Hfetch _ _ Hf) as [Hv Hid].
  assert (Hp : match previous with
               | Some p => valid_snapshot p = true
               | None => True
               end).
  { destruct previous as [p|]; [|exact I]. by apply load_latest_news_valid in Hl as [? _]. }
  destruct (merge_valid new_news previous default_max_articles Hv Hid Hp) as [Hmv Hmid].
  rewrite <- Hm in Hmv, Hmid. by apply load_after_save_news.
Qed.

Lemma process_questions_other questions news_agg detector llm now storage fs updates fs'
    (qid' : Z) :
  process_questions questions news_agg detector llm now storage fs = (updates, fs') ->
  qid' ∉ q_question_id <$> questions ->
  load_latest_news storage fs' qid' = load_latest_news storage fs qid'.
Proof.
  revert now fs updates. induction questions as [|q rest IH]; intros now fs updates H Hn.
  - by injection H as <- <-.
  - cbn [process_questions] in H.
    destruct (process_question q _ _ _ _ _ _) as [[r fs1] ps] eqn:E1.
    destruct (process_questions rest _ _ _ _ _ _) as [ups fs2] eqn:E2.
    injection H as <- <-. rewrite fmap_cons, not_elem_of_cons in Hn.
    destruct Hn as [Hq Hrest].
    rewrite (IH _ _ _ E2 Hrest).
    eapply process_question_other; [exact E1|congruence].
Qed.

Lemma save_news_lookup (self : Storage) (fs : files) (qid : Z) (s : NewsSnapshot) :
  let dir := path_join (news_dir self) (str_of_Z qid) in
  save_news self fs qid s !! path_join dir (u "latest.json") = Some (dump_snapshot s)
  /\ save_news self fs qid s !! path_join dir (_get_timestamp_filename (fetched_at s))
     = Some (dump_snapshot s).
Proof.
  intros dir. unfold save_news, _save_model, latest_path. fold dir. split.
  - apply lookup_insert_eq.
  - destruct (decide (path_join dir (u "latest.json")
                      = path_join dir (_get_timestamp_filename (fetched_at s))))
      as [->|Hne].
    + apply lookup_insert_eq.
    + rewrite lookup_insert_ne by exact Hne. apply lookup_insert_eq.
Qed.

(** The fetched snapshots of [fetching] are well formed. *)
Lemma fetching_valid (t : datetime) (arts : list NewsArticle) (q : QuestionMetadata)
    (since : option datetime) (s : NewsSnapshot) :
  valid_snapshot (sample_snapshot t arts) = true ->
  fetching t arts q since = Ok s ->
  valid_snapshot s = true /\ snapshot_id s <> [].
Proof.
  intros Hv H. injection H as <-. split; [exact Hv|].
  apply strftime_id_nonempty.
Qed.

(** X14. A run that returns an update has stored its snapshot: for a
    retrieval that returns well-formed snapshots, loading the latest record
    of the question afterwards gives the snapshot of the update, and both
    [latest.json] and the file named after the fetch time hold its
    document. *)
Theorem process_question_persists q news_agg detector llm now storage fs update fs'
    prompts :
  (forall since s, news_agg q since = Ok s ->
                   valid_snapshot s = true /\ snapshot_id s <> []) ->
  process_question q news_agg detector llm now storage fs
  = (Some update, fs', prompts) ->
  let snapshot := news_snapshot update in
  let dir := path_join (news_dir storage) (str_of_Z (q_question_id q)) in
  load_latest_news storage fs' (q_question_id q) = Ok (Some snapshot)
  /\ fs' !! path_join dir (u "latest.json") = Some (dump_snapshot snapshot)
  /\ fs' !! path_join dir (_get_timestamp_filename (fetched_at snapshot))
     = Some (dump_snapshot snapshot).
Proof.
  intros Hfetch H snapshot dir.
  destruct (process_question_saved _ _ _ _ _ _ _ _ _ _ Hfetch H) as [_ Hl].
  split; [exact Hl|].
  apply process_question_Some in H as (_ & _ & _ & _ & _ & _ & ->).
  apply save_news_lookup.
Qed.

Lemma process_question_persists_witness :
  let run :=
    process_question sample_question (fetching later_time [art_C]) sample_detector
      (replying reply_minor) later_time sample_storage stored_files in
  exists update,
    run.1.1 = Some update
    /\ (let snapshot := news_snapshot update in
        let dir :=
          path_join (news_dir sample_storage)
            (str_of_Z (q_question_id sample_question)) in
        load_latest_news sample_storage run.1.2 (q_question_id sample_question)
        = Ok (Some snapshot)
        /\ run.1.2 !! path_join dir (u "latest.json") = Some (dump_snapshot snapshot)
        /\ run.1.2 !! path_join dir (_get_timestamp_filename (fetched_at snapshot))
           = Some (dump_snapshot snapshot)).
Proof.
  intros run. subst run.
  remember (process_question _ _ _ _ _ _ _) as run eqn:E.
  destruct run as [[[update|] fs'] prompts]; cbn [fst snd].
  - exists update. split; [reflexivity|].
    apply (process_question_persists sample_question (fetching later_time [art_C])
             sample_detector (replying reply_minor) later_time sample_storage
             stored_files update fs' prompts).
    + intros since s. apply fetching_valid. vm_compute. reflexivity.
    + symmetry. exact E.
  - exfalso. apply (f_equal (fun r => r.1.1)) in E. vm_compute in E. discriminate E.
Defined.

(** *** What a run leaves alone *)

Lemma series_path_inj (self : Storage) (a b : Z) :
  series_path self a = series_path self b -> a = b.
Proof.
  unfold series_path, path_join. intros H.
  apply app_inv_head in H. injection H as H. apply app_inv_tail in H.
  by apply str_of_Z_inj.
Qed.

Lemma load_save_series (self : Storage) (fs : files) (series_id : Z) (ids : list Z) :
  load_series self (save_series self fs series_id ids) series_id
  = Ok (Some (PyList (PyInt <$> ids))).
Proof.
  unfold load_series, save_series. rewrite lookup_insert_eq. reflexivity.
Qed.

Lemma load_save_series_ne (self : Storage) (fs : files) (a b : Z) (ids : list Z) :
  a <> b ->
  load_series self (save_series self fs a ids) b = load_series self fs b.
Proof.
  intros Hne. unfold load_series, save_series.
  rewrite lookup_insert_ne; [reflexivity|].
  intros E. by apply series_path_inj in E.
Qed.

Lemma path_join_assoc (a b c : pystr) :
  path_join (path_join a b) c = path_join a (path_join b c).
Proof. unfold path_join. by rewrite <- !app_assoc. Qed.

Lemma series_path_not_news (self : Storage) (sid : Z) (p : pystr) :
  series_path self sid <> path_join (news_dir self) p.
Proof.
  unfold series_path, series_dir, news_dir, path_join. rewrite <- !app_assoc.
  intros H. apply app_inv_head in H. discriminate.
Qed.


(** *** Runs with a previous snapshot *)

(** The sample store holds the first sample snapshot. *)
Lemma stored_files_latest :
  load_latest_news sample_storage stored_files (q_question_id sample_question)
  = Ok (Some (sample_snapshot sample_time [art_A; art_B])).
Proof. vm_compute. reflexivity. Qed.

(** X16. When every fetched article is already known, the run keeps the
    previous articles (the first 50), reports no change with score 0
    without consulting the text-generation service, and stores the merged
    snapshot. *)
Theorem process_question_nothing_new q news_agg detector llm now storage fs
    previous new_news :
  load_latest_news storage fs (q_question_id q) = Ok (Some previous) ->
  news_agg q (Some (fetched_at previous)) = Ok new_news ->
  (forall a, a ∈ articles new_news -> url a ∈ url_set (articles previous)) ->
  let merged := merge_with_previous new_news (Some previous) default_max_articles in
  articles merged = take 50 (articles previous)
  /\ process_question q news_agg detector llm now storage fs
     = (Some (mk_NewsUpdate q merged
                (Some (mk_ChangeReport (q_question_id q) now
                         (snapshot_id previous) (snapshot_id merged)
                         (u "No new articles found since last check.")
                         0 false []))),
        save_news storage fs (q_question_id q) merged, []).
Proof.
  intros Hl Hf Hknown merged.
  assert (Ha : articles merged = take 50 (articles previous)).
  { subst merged. unfold merge_with_previous.
    rewrite new_NewsSnapshot_articles, (not_in_urls_nil _ _ Hknown).
    reflexivity. }
  split; [exact Ha|].
  unfold process_question, process_question_body. rewrite Hl.
  cbn [fmap option_fmap option_map]. rewrite Hf. fold merged.
  rewrite detect_changes_empty; [reflexivity|].
  apply not_in_urls_nil. intros a Hin. rewrite Ha in Hin.
  apply url_in_url_set. eapply elem_of_sublist; [exact Hin|apply sublist_take].
Qed.

Lemma process_question_nothing_new_witness :
  let previous := sample_snapshot sample_time [art_A; art_B] in
  let new_news := sample_snapshot later_time [art_B; art_A] in
  let merged := merge_with_previous new_news (Some previous) default_max_articles in
  articles merged = take 50 (articles previous)
  /\ process_question sample_question (fetching later_time [art_B; art_A])
       sample_detector (replying reply_plain) later_time sample_storage stored_files
     = (Some (mk_NewsUpdate sample_question merged
                (Some (mk_ChangeReport (q_question_id sample_question) later_time
                         (snapshot_id previous) (snapshot_id merged)
                         (u "No new articles found since last check.")
                         0 false []))),
        save_news sample_storage stored_files (q_question_id sample_question) merged,
        []).
Proof.
  apply (process_question_nothing_new sample_question
           (fetching later_time [art_B; art_A]) sample_detector
           (replying reply_plain) later_time sample_storage stored_files
           (sample_snapshot sample_time [art_A; art_B])
           (sample_snapshot later_time [art_B; art_A])).
  - exact stored_files_latest.
  - reflexivity.
  - intros a Ha. apply (bool_decide_unpack _).
    apply elem_of_cons in Ha. destruct Ha as [->|Ha]; [vm_compute; exact I|].
    apply list_elem_of_singleton in Ha. subst a. vm_compute. exact I.
Defined.

(** What a successful run tells about its report. *)
Lemma process_question_report q news_agg detector llm now storage fs update fs' prompts
    previous :
  process_question q news_agg detector llm now storage fs
  = (Some update, fs', prompts) ->
  load_latest_news storage fs (q_question_id q) = Ok (Some previous) ->
  exists report,
    change_report update = Some report
    /\ detect_changes detector llm now q previous (news_snapshot update)
       = (Ok report, prompts).
Proof.
  unfold process_question, process_question_body. intros H Hl. rewrite Hl in H.
  cbn [fmap option_fmap option_map] in H.
  destruct (news_agg q (Some (fetched_at previous))) as [new_news|]; [|discriminate].
  destruct (detect_changes detector llm now q previous _) as [[cr|] ps] eqn:Ed;
    cbn [bind] in H; [|discriminate].
  injection H as <- <- <-. cbn [change_report news_snapshot]. by exists cr.
Qed.

(** X17. Through the merge, the report of a run lists as new the first 50
    genuinely new articles of the fetched snapshot, and the run submits a
    prompt exactly when there is such an article. *)
Theorem process_question_new_articles q news_agg detector llm now storage fs
    update fs' prompts previous new_news :
  process_question q news_agg detector llm now storage fs
  = (Some update, fs', prompts) ->
  load_latest_news storage fs (q_question_id q) = Ok (Some previous) ->
  news_agg q (Some (fetched_at previous)) = Ok new_news ->
  exists report,
    change_report update = Some report
    /\ new_articles report
       = take 50 (get_new_articles new_news (Some previous))
    /\ (prompts = [] <-> get_new_articles new_news (Some previous) = []).
Proof.
  intros H Hl Hf.
  destruct (process_question_report _ _ _ _ _ _ _ _ _ _ _ H Hl) as (report & Hr & Hd).
  apply process_question_Some in H as (p' & n' & Hl' & Hf' & Hm & _ & _).
  rewrite Hl in Hl'. injection Hl' as <-.
  cbn [fmap option_fmap option_map] in Hf'. rewrite Hf in Hf'. injection Hf' as <-.
  exists report. split; [exact Hr|].
  assert (Hnew : get_new_articles (news_snapshot update) (Some previous)
                 = take 50 (get_new_articles new_news (Some previous))).
  { rewrite Hm. unfold merge_with_previous, get_new_articles.
    rewrite new_NewsSnapshot_articles. unfold default_max_articles.
    rewrite slice_to_nonneg by lia. apply not_in_urls_take_combined. }
  unfold get_new_articles in Hnew at 1.
  destruct (decide (get_new_articles new_news (Some previous) = [])) as [Hnil|Hne].
  - rewrite Hnil in *. rewrite take_nil in *.
    rewrite detect_changes_empty in Hd by exact Hnew.
    injection Hd as <- <-. by repeat split.
  - assert (Hne' : not_in_urls (url_set (articles previous))
                     (articles (news_snapshot update)) <> []).
    { rewrite Hnew. destruct (get_new_articles new_news (Some previous));
        [congruence|discriminate]. }
    rewrite detect_changes_nonempty in Hd by exact Hne'.
    injection Hd as Hd Hp. split.
    + cbn zeta in Hd.
      destruct (llm _ _) as [content|]; cbn [bind] in Hd; [|discriminate].
      destruct (parse_or_fallback _ _) as [res|]; cbn [bind] in Hd; [|discriminate].
      apply build_report_Ok in Hd as (_ & _ & _ & _ & _ & _ & _ & _ & Ha).
      by rewrite Ha, Hnew.
    + split; [intros E; rewrite E in Hp; discriminate|contradiction].
Qed.

Lemma process_question_new_articles_witness :
  let previous := sample_snapshot sample_time [art_A; art_B] in
  let new_news := sample_snapshot later_time [art_C] in
  let run :=
    process_question sample_question (fetching later_time [art_C]) sample_detector
      (replying reply_minor) later_time sample_storage stored_files in
  exists update,
    run.1.1 = Some update
    /\ exists report,
         change_report update = Some report
         /\ new_articles report
            = take 50 (get_new_articles new_news (Some previous))
         /\ (run.2 = [] <-> get_new_articles new_news (Some previous) = []).
Proof.
  intros previous new_news run. subst run.
  remember (process_question _ _ _ _ _ _ _) as run eqn:E.
  destruct run as [[[update|] fs'] prompts]; cbn [fst snd].
  - exists update. split; [reflexivity|].
    apply (process_question_new_articles sample_question
             (fetching later_time [art_C]) sample_detector (replying reply_minor)
             later_time sample_storage stored_files update fs' prompts previous
             new_news).
    + symmetry. exact E.
    + exact stored_files_latest.
    + reflexivity.
  - exfalso. apply (f_equal (fun r => r.1.1)) in E. vm_compute in E. discriminate E.
Defined.

(** X18. When the text-generation service fails, the run returns no
    update and stores nothing, after having submitted its one prompt: the
    fetched articles are not recorded, and the next run meets them again. *)
Theorem process_question_service_failure q news_agg detector llm now storage fs
    previous new_news (e : exn) :
  load_latest_news storage fs (q_question_id q) = Ok (Some previous) ->
  news_agg q (Some (fetched_at previous)) = Ok new_news ->
  let merged := merge_with_previous new_news (Some previous) default_max_articles in
  let new_arts := get_new_articles merged (Some previous) in
  new_arts <> [] ->
  llm (model detector) (build_prompt q previous new_arts) = Raise e ->
  process_question q news_agg detector llm now storage fs
  = (None, fs, [build_prompt q previous new_arts]).
Proof.
  intros Hl Hf merged new_arts Hne Hllm.
  unfold process_question, process_question_body. rewrite Hl.
  cbn [fmap option_fmap option_map]. rewrite Hf. fold merged.
  rewrite detect_changes_nonempty by exact Hne. cbn zeta.
  fold (get_new_articles merged (Some previous)). fold new_arts.
  by rewrite Hllm.
Qed.

Lemma process_question_service_failure_witness :
  let previous := sample_snapshot sample_time [art_A; art_B] in
  let new_news := sample_snapshot later_time [art_C] in
  let merged := merge_with_previous new_news (Some previous) default_max_articles in
  let new_arts := get_new_articles merged (Some previous) in
  process_question sample_question (fetching later_time [art_C]) sample_detector
    failing later_time sample_storage stored_files
  = (None, stored_files, [build_prompt sample_question previous new_arts]).
Proof.
  apply (process_question_service_failure sample_question
           (fetching later_time [art_C]) sample_detector failing later_time
           sample_storage stored_files
           (sample_snapshot sample_time [art_A; art_B])
           (sample_snapshot later_time [art_C]) ServiceError).
  - exact stored_files_latest.
  - reflexivity.
  - vm_compute. discriminate.
  - reflexivity.
Defined.

(** X19. The snapshot of an update produced with [fetch_news_for_question]
    carries the id of the question, the clock reading of the fetch, the
    search query built from the question, and the fetch time formatted to
    the second as its identifier, with or without a previous snapshot. *)
Theorem process_question_snapshot_fields q exa fetched detector llm now storage fs
    update fs' prompts :
  process_question q (fetch_news_for_question exa fetched) detector llm now storage fs
  = (Some update, fs', prompts) ->
  question_id (news_snapshot update) = q_question_id q
  /\ fetched_at (news_snapshot update) = fetched
  /\ search_query (news_snapshot update) = _build_search_query q
  /\ snapshot_id (news_snapshot update) = strftime (u "%Y-%m-%dT%H-%M-%S") fetched.
Proof.
  intros H. apply process_question_Some in H as (previous & new_news & _ & Hf & Hm & _ & _).
  unfold fetch_news_for_question in Hf. cbn zeta in Hf.
  destruct (exa _ _) as [arts|]; [|discriminate]. cbn [bind] in Hf.
  injection Hf as <-. rewrite Hm. by destruct previous.
Qed.

Lemma process_question_snapshot_fields_witness :
  let run :=
    process_question sample_question
      (fetch_news_for_question (finding [art_C]) later_time) sample_detector
      (replying reply_minor) later_time sample_storage stored_files in
  exists update,
    run.1.1 = Some update
    /\ question_id (news_snapshot update) = q_question_id sample_question
    /\ fetched_at (news_snapshot update) = later_time
    /\ search_query (news_snapshot update) = _build_search_query sample_question
    /\ snapshot_id (news_snapshot update)
       = strftime (u "%Y-%m-%dT%H-%M-%S") later_time.
Proof.
  intros run. subst run.
  remember (process_question _ _ _ _ _ _ _) as run eqn:E.
  destruct run as [[[update|] fs'] prompts]; cbn [fst snd].
  - exists update. split; [reflexivity|].
    apply (process_question_snapshot_fields sample_question (finding [art_C])
             later_time sample_detector (replying reply_minor) later_time
             sample_storage stored_files update fs' prompts).
    symmetry. exact E.
  - exfalso. apply (f_equal (fun r => r.1.1)) in E. vm_compute in E. discriminate E.
Defined.

(** *** The loop over the questions *)

(** X20. After the loop over questions with pairwise different ids, and
    for a retrieval that returns well-formed snapshots, the updates belong
    to a subsequence of the questions, in their order, and the latest
    record stored for the question of each update is the snapshot of that
    update: no later iteration has replaced it. *)
Theorem process_questions_persist questions news_agg detector llm now storage fs
    updates fs' :
  NoDup (q_question_id <$> questions) ->
  (forall q since s, news_agg q since = Ok s ->
                     valid_snapshot s = true /\ snapshot_id s <> []) ->
  process_questions questions news_agg detector llm now storage fs = (updates, fs') ->
  (question <$> updates) `sublist_of` questions
  /\ forall upd, upd ∈ updates ->
       load_latest_news storage fs' (q_question_id (question upd))
       = Ok (Some (news_snapshot upd)).
Proof.
  intros Hnd Hfetch. revert now fs updates.
  induction questions as [|q rest IH]; intros now fs updates H.
  - injection H as <- <-. split; [constructor|]. intros upd Hin. by apply elem_of_nil in Hin.
  - cbn [process_questions] in H.
    destruct (process_question q _ _ _ _ _ _) as [[r fs1] ps] eqn:E1.
    destruct (process_questions rest _ _ _ _ _ _) as [ups fs2] eqn:E2.
    injection H as <- <-. rewrite fmap_cons in Hnd. apply NoDup_cons in Hnd as [Hq Hnd].
    destruct (IH Hnd _ _ _ E2) as [Hsub Hall].
    destruct r as [upd0|].
    + destruct (process_question_saved _ _ _ _ _ _ _ _ _ _ (Hfetch q) E1) as [Hq0 Hl0].
      split.
      * rewrite fmap_cons, Hq0. by apply sublist_skip.
      * intros upd Hin. apply elem_of_cons in Hin as [->|Hin]; [|by apply Hall].
        rewrite Hq0. rewrite (process_questions_other _ _ _ _ _ _ _ _ _ _ E2 Hq).
        exact Hl0.
    + split; [by apply sublist_cons|exact Hall].
Qed.

Lemma process_questions_persist_witness :
  let run :=
    process_questions [sample_question; other_question]
      (fetching later_time [art_C]) sample_detector (replying reply_minor)
      (fun _ => later_time) sample_storage stored_files in
  length run.1 = 1%nat
  /\ (question <$> run.1) `sublist_of` [sample_question; other_question]
  /\ forall upd, upd ∈ run.1 ->
       load_latest_news sample_storage run.2 (q_question_id (question upd))
       = Ok (Some (news_snapshot upd)).
Proof.
  intros run. split; [vm_compute; reflexivity|].
  apply (process_questions_persist [sample_question; other_question]
           (fetching later_time [art_C]) sample_detector (replying reply_minor)
           (fun _ => later_time) sample_storage stored_files run.1 run.2).
  - apply (bool_decide_unpack _). vm_compute. exact I.
  - intros q since s. apply fetching_valid. vm_compute. reflexivity.
  - subst run. by destruct (process_questions _ _ _ _ _ _ _).
Defined.

(** X21. On a store without any record of the questions, when the
    retrieval finds at least one article for each of them, the loop
    produces no update at all and stores nothing: every call ends in the
    validation error of the first-run report, so there is nothing
    significant to announce, and the next run starts from the same store. *)
Theorem process_questions_fresh_store questions news_agg detector llm now storage fs :
  (forall q, q ∈ questions ->
     load_latest_news storage fs (q_question_id q) = Ok None) ->
  (forall q, q ∈ questions ->
     exists s, news_agg q None = Ok s /\ articles s <> []) ->
  process_questions questions news_agg detector llm now storage fs = ([], fs)
  /\ significant_updates
       (fst (process_questions questions news_agg detector llm now storage fs)) = [].
Proof.
  intros Hload Hfetch.
  assert (H : process_questions questions news_agg detector llm now storage fs = ([], fs)).
  { revert now. induction questions as [|q rest IH]; intros now; [reflexivity|].
    cbn [process_questions].
    destruct (Hfetch q) as (s & Hs & Hne); [by left|].
    rewrite (first_run_with_articles_returns_None q news_agg detector llm (now 0%nat)
               storage fs s); [|apply Hload; by left|exact Hs|exact Hne].
    rewrite IH; [reflexivity| |].
    - intros q' Hq'. apply Hload. by right.
    - intros q' Hq'. apply Hfetch. by right. }
  split; [exact H|]. by rewrite H.
Qed.

Lemma process_questions_fresh_store_witness :
  process_questions [sample_question; other_question]
    (fetching later_time [art_C]) sample_detector (replying reply_minor)
    (fun _ => later_time) sample_storage ∅ = ([], ∅)
  /\ significant_updates
       (fst (process_questions [sample_question; other_question]
               (fetching later_time [art_C]) sample_detector (replying reply_minor)
               (fun _ => later_time) sample_storage ∅)) = [].
Proof.
  apply (process_questions_fresh_store [sample_question; other_question]
           (fetching later_time [art_C]) sample_detector (replying reply_minor)
           (fun _ => later_time) sample_storage ∅).
  - intros q Hq. unfold load_latest_news, _load_model. by rewrite lookup_empty.
  - intros q Hq. eexists. split; [reflexivity|discriminate].
Defined.

(** *** The questions of a run *)

Lemma unique_questions_sublist (seen : gset Z) (l : list QuestionMetadata) :
  unique_questions seen l `sublist_of` l.
Proof.
  revert seen. induction l as [|q l IH]; intros seen; [constructor|].
  cbn [unique_questions]. destruct (decide _).
  - by apply sublist_cons.
  - by apply sublist_skip.
Qed.

Lemma unique_questions_unseen (seen : gset Z) (l : list QuestionMetadata) (q : QuestionMetadata) :
  q ∈ unique_questions seen l -> q_question_id q ∉ seen.
Proof.
  revert seen. induction l as [|x l IH]; intros seen H.
  - by apply elem_of_nil in H.
  - cbn [unique_questions] in H. destruct (decide _) as [Hin|Hn]; [by apply IH|].
    apply elem_of_cons in H as [->|H]; [exact Hn|].
    apply IH in H. set_solver.
Qed.

Lemma unique_questions_NoDup (seen : gset Z) (l : list QuestionMetadata) :
  NoDup (q_question_id <$> unique_questions seen l).
Proof.
  revert seen. induction l as [|x l IH]; intros seen; [constructor|].
  cbn [unique_questions]. destruct (decide _) as [Hin|Hn]; [apply IH|].
  rewrite fmap_cons. apply NoDup_cons. split; [|apply IH].
  intros H. apply list_elem_of_fmap in H as (q & Hq & H).
  apply unique_questions_unseen in H. set_solver.
Qed.

Lemma unique_questions_covers (seen : gset Z) (l : list QuestionMetadata) (q : QuestionMetadata) :
  q ∈ l -> q_question_id q ∉ seen ->
  q_question_id q ∈ q_question_id <$> unique_questions seen l.
Proof.
  revert seen. induction l as [|x l IH]; intros seen H Hn.
  - by apply elem_of_nil in H.
  - cbn [unique_questions]. destruct (decide _) as [Hin|Hx].
    + apply elem_of_cons in H. destruct H as [E|H]; [by subst|by apply IH].
    + rewrite fmap_cons. apply elem_of_cons in H. destruct H as [E|H]; [subst; by left|].
      destruct (decide (q_question_id q = q_question_id x)) as [E|Hne];
        [rewrite E; by left|].
      right. apply IH; [exact H|].
      apply not_elem_of_union. split; [by apply not_elem_of_singleton|exact Hn].
Qed.

(** A question that is kept is the first of the list with its id. *)
Lemma unique_questions_first (seen : gset Z) (l : list QuestionMetadata) (q : QuestionMetadata) :
  q ∈ unique_questions seen l ->
  exists before after,
    l = before ++ q :: after /\ q_question_id q ∉ q_question_id <$> before.
Proof.
  revert seen. induction l as [|x l IH]; intros seen H.
  - by apply elem_of_nil in H.
  - cbn [unique_questions] in H. destruct (decide _) as [Hin|Hx].
    + destruct (IH _ H) as (b & a & -> & Hb). exists (x :: b), a. split; [reflexivity|].
      rewrite fmap_cons, not_elem_of_cons. split; [|exact Hb].
      intros E. apply unique_questions_unseen in H. congruence.
    + apply elem_of_cons in H as [->|H].
      * exists [], l. split; [reflexivity|]. rewrite fmap_nil. apply not_elem_of_nil.
      * pose proof (unique_questions_unseen _ _ _ H) as Hu.
        destruct (IH _ H) as (b & a & -> & Hb). exists (x :: b), a.
        split; [reflexivity|]. rewrite fmap_cons, not_elem_of_cons.
        split; [set_solver|exact Hb].
Qed.

Lemma gather_series_questions client storage series questions fs :
  fst (gather_series client storage series questions fs)
  = questions ++ concat (get_questions_in_series client <$> series).
Proof.
  revert questions fs. induction series as [|sid rest IH]; intros questions fs.
  - cbn. by rewrite app_nil_r.
  - cbn [gather_series]. rewrite IH, fmap_cons. cbn [concat]. by rewrite app_assoc.
Qed.

(** X22. [get_questions_to_process] returns every gathered question id
    exactly once: the result has pairwise different ids, is a subsequence
    of the questions gathered from the configured ids and then the series,
    covers the id of every gathered question, and keeps for each id the
    first question gathered with it. *)
Theorem get_questions_to_process_unique client question_ids series_ids storage fs :
  let gathered :=
    omap (get_question client) question_ids
    ++ concat (get_questions_in_series client <$> series_ids) in
  let questions :=
    fst (get_questions_to_process client question_ids series_ids storage fs) in
  NoDup (q_question_id <$> questions)
  /\ questions `sublist_of` gathered
  /\ (forall q, q ∈ gathered -> q_question_id q ∈ q_question_id <$> questions)
  /\ (forall q, q ∈ questions ->
        exists before after,
          gathered = before ++ q :: after
          /\ q_question_id q ∉ q_question_id <$> before).
Proof.
  intros gathered questions.
  assert (Hq : questions = unique_questions ∅ gathered).
  { subst questions gathered. unfold get_questions_to_process.
    pose proof (gather_series_questions client storage series_ids
                  (omap (get_question client) question_ids) fs) as Hg.
    destruct (gather_series _ _ _ _ _) as [qs fs1]. cbn [fst] in *. by rewrite Hg. }
  rewrite Hq. split; [apply unique_questions_NoDup|].
  split; [apply unique_questions_sublist|].
  split.
  - intros q Hin. apply unique_questions_covers; [exact Hin|set_solver].
  - intros q Hin. by apply unique_questions_first in Hin.
Qed.

(** *** Series files *)

Lemma gather_series_files client storage series questions fs (sid : Z) :
  load_series storage (snd (gather_series client storage series questions fs)) sid
  = if decide (sid ∈ series)
    then Ok (Some (PyList (PyInt <$> (q_question_id <$> get_questions_in_series client sid))))
    else load_series storage fs sid.
Proof.
  revert questions fs. induction series as [|x rest IH]; intros questions fs.
  - reflexivity.
  - cbn [gather_series]. rewrite IH.
    destruct (decide (sid ∈ rest)) as [Hin|Hn].
    + rewrite decide_True by (by right). reflexivity.
    + destruct (decide (sid = x)) as [->|Hne].
      * rewrite decide_True by (by left). apply load_save_series.
      * rewrite decide_False by (rewrite elem_of_cons; tauto).
        by apply load_save_series_ne.
Qed.

Lemma gather_series_news client storage series questions fs (p : pystr) :
  snd (gather_series client storage series questions fs) !! path_join (news_dir storage) p
  = fs !! path_join (news_dir storage) p.
Proof.
  revert questions fs. induction series as [|x rest IH]; intros questions fs.
  - reflexivity.
  - cbn [gather_series]. rewrite IH. unfold save_series.
    apply lookup_insert_ne, series_path_not_news.
Qed.

(** X23. [get_questions_to_process] writes the series files and nothing
    else: afterwards [load_series] returns, for every configured series,
    the ids of the questions the service listed for it, in their order; the
    other series files and the latest snapshot of every question are as
    before. *)
Theorem get_questions_to_process_files client question_ids series_ids storage fs :
  let fs' := snd (get_questions_to_process client question_ids series_ids storage fs) in
  (forall sid, sid ∈ series_ids ->
     load_series storage fs' sid
     = Ok (Some (PyList (PyInt <$> (q_question_id <$> get_questions_in_series client sid)))))
  /\ (forall sid, sid ∉ series_ids -> load_series storage fs' sid = load_series storage fs sid)
  /\ (forall qid, load_latest_news storage fs' qid = load_latest_news storage fs qid).
Proof.
  intros fs'.
  assert (Hfs : fs' = snd (gather_series client storage series_ids
                             (omap (get_question client) question_ids) fs)).
  { subst fs'. unfold get_questions_to_process. by destruct (gather_series _ _ _ _ _). }
  rewrite Hfs. split; [|split].
  - intros sid Hin. by rewrite gather_series_files, decide_True.
  - intros sid Hn. by rewrite gather_series_files, decide_False.
  - intros qid. unfold load_latest_news, _load_model, latest_path.
    by rewrite path_join_assoc, gather_series_news.
Qed.

(** ** Recipients of the alerts *)

Lemma lstrip_suffix (s : pystr) : lstrip s `suffix_of` s.
Proof.
  induction s as [|c s IH]; [done|]. cbn [lstrip]. destruct (is_space c); [|done].
  by apply suffix_cons_r.
Qed.

Lemma lstrip_fixed (s : pystr) :
  lstrip s = s <-> match s with [] => True | c :: _ => is_space c = false end.
Proof.
  destruct s as [|c s]; [done|]. cbn [lstrip]. destruct (is_space c) eqn:E.
  - split; [|discriminate]. intros H. pose proof (lstrip_suffix s) as Hs.
    rewrite H in Hs. apply suffix_length in Hs. cbn [length] in Hs. lia.
  - done.
Qed.

Lemma lstrip_idemp (s : pystr) : lstrip (lstrip s) = lstrip s.
Proof.
  induction s as [|c s IH]; [done|]. cbn [lstrip]. destruct (is_space c) eqn:E; [done|].
  cbn [lstrip]. by rewrite E.
Qed.

Lemma strip_stripped_id (s : pystr) : stripped s -> strip s = s.
Proof. intros [H1 H2]. unfold strip. by rewrite H1, H2, rev_involutive. Qed.

Lemma strip_stripped (s : pystr) : stripped (strip s).
Proof.
  unfold stripped, strip. rewrite rev_involutive, lstrip_idemp. split; [|done].
  set (t := lstrip s). set (w := lstrip (rev t)).
  apply lstrip_fixed.
  destruct (rev w) as [|c r] eqn:Ew; [done|].
  assert (Hp : (c :: r) `prefix_of` t).
  { rewrite <- Ew. destruct (lstrip_suffix (rev t)) as [k Hk]. fold w in Hk.
    exists (rev k). apply (f_equal (@rev N)) in Hk.
    by rewrite rev_involutive, rev_app_distr in Hk. }
  destruct Hp as [k Hk].
  assert (Ht : lstrip t = t) by apply lstrip_idemp.
  rewrite Hk in Ht. by apply lstrip_fixed in Ht.
Qed.

Lemma elem_of_rev_list {A} (x : A) (l : list A) : x ∈ rev l <-> x ∈ l.
Proof. rewrite !list_elem_of_In. symmetry. apply in_rev. Qed.

Lemma strip_elem (s : pystr) (c : N) : c ∈ strip s -> c ∈ s.
Proof.
  unfold strip. intros H. rewrite elem_of_rev_list in H.
  destruct (lstrip_suffix (rev (lstrip s))) as [k Hk].
  assert (H' : c ∈ rev (lstrip s)). { rewrite Hk. apply elem_of_app. by right. }
  rewrite elem_of_rev_list in H'. destruct (lstrip_suffix s) as [k' Hk'].
  rewrite Hk'. apply elem_of_app. by right.
Qed.

Lemma strip_blank (s : pystr) : stripped s -> strip (32%N :: s) = s.
Proof.
  intros Hs. unfold strip. change (lstrip (32%N :: s)) with (lstrip s).
  by apply strip_stripped_id.
Qed.

Lemma split_comma_cons (s : pystr) : exists p ps, split_comma s = p :: ps.
Proof.
  induction s as [|c s (p & ps & IH)]; [by eexists _, _|].
  cbn [split_comma]. destruct (N.eqb c 44); [by eexists _, _|].
  rewrite IH. by eexists _, _.
Qed.

Lemma split_comma_parts (s p : pystr) : p ∈ split_comma s -> 44%N ∉ p.
Proof.
  revert p. induction s as [|c s IH]; intros p H.
  - apply list_elem_of_singleton in H as ->. apply not_elem_of_nil.
  - cbn [split_comma] in H. destruct (N.eqb c 44) eqn:E.
    + apply elem_of_cons in H. destruct H as [->|H]; [apply not_elem_of_nil|by apply IH].
    + destruct (split_comma_cons s) as (p0 & ps & Hs). rewrite Hs in H, IH.
      apply elem_of_cons in H. destruct H as [->|H].
      * apply not_elem_of_cons. split; [by apply N.eqb_neq in E|].
        apply IH. by left.
      * apply IH. by right.
Qed.

Lemma split_comma_app (r s : pystr) :
  44%N ∉ r -> split_comma (r ++ 44%N :: s) = r :: split_comma s.
Proof.
  induction r as [|c r IH]; intros H; [reflexivity|].
  apply not_elem_of_cons in H as [Hc Hr]. cbn [app split_comma].
  apply N.eqb_neq in Hc. rewrite N.eqb_sym in Hc. rewrite Hc.
  by rewrite IH.
Qed.

Lemma split_comma_single (r : pystr) : 44%N ∉ r -> split_comma r = [r].
Proof.
  induction r as [|c r IH]; intros H; [reflexivity|].
  apply not_elem_of_cons in H as [Hc Hr]. cbn [split_comma].
  apply N.eqb_neq in Hc. rewrite N.eqb_sym in Hc. rewrite Hc.
  by rewrite IH.
Qed.

Lemma parse_recipients_address (env : option pystr) (r : pystr) :
  r ∈ parse_recipients env -> address r.
Proof.
  unfold parse_recipients.
  destruct env as [[|c s]|]; try (intros H; by apply elem_of_nil in H).
  rewrite list_elem_of_In, filter_In, in_map_iff.
  intros [(p & <- & Hp) Hne]. apply list_elem_of_In in Hp.
  split; [by destruct (strip p)|]. split; [|apply strip_stripped].
  intros Hc. by apply (split_comma_parts _ _ Hp), strip_elem.
Qed.

Lemma address_kept (r : pystr) (b : bool) :
  address r -> strip (if b then 32%N :: r else r) = r /\ non_empty r = true.
Proof.
  intros (Hne & _ & Hs). split; [|by destruct r].
  destruct b; [by apply strip_blank|by apply strip_stripped_id].
Qed.

Lemma split_header (b : bool) (r : pystr) (rs : list pystr) :
  address r -> Forall address rs ->
  List.filter non_empty
    (List.map strip
       (split_comma ((if b then 32%N :: r else r) ++
                     match rs with
                     | [] => []
                     | _ :: _ => 44%N :: 32%N :: to_header rs
                     end)))
  = r :: rs.
Proof.
  intros Hr Hrs. revert b r Hr. induction Hrs as [|r' rs Hr' Hrs IH]; intros b r Hr.
  - rewrite app_nil_r. destruct (address_kept r b Hr) as [Hk Hn].
    rewrite split_comma_single.
    2:{ destruct Hr as (_ & Hc & _). destruct b; [|exact Hc].
        apply not_elem_of_cons. by split. }
    cbn [List.map List.filter]. by rewrite Hk, Hn.
  - destruct (address_kept r b Hr) as [Hk Hn].
    rewrite split_comma_app.
    2:{ destruct Hr as (_ & Hc & _). destruct b; [|exact Hc].
        apply not_elem_of_cons. by split. }
    cbn [List.map List.filter]. rewrite Hk, Hn. f_equal.
    specialize (IH true r' Hr').
    assert (Hh : 32%N :: to_header (r' :: rs)
                 = (32%N :: r') ++ match rs with
                                   | [] => []
                                   | _ :: _ => 44%N :: 32%N :: to_header rs
                                   end).
    { unfold to_header. destruct rs; [by rewrite app_nil_r|reflexivity]. }
    by rewrite Hh.
Qed.

(** X24. The recipients read from EMAIL_RECIPIENTS are non-empty, hold no
    comma and no blank at either end; and the To header of an alert, which
    joins them with a comma and a blank, reads back as the same list. *)
Theorem parse_recipients_to_header (env : option pystr) :
  let recipients := parse_recipients env in
  Forall (fun r => r <> [] /\ (44%N ∉ r) /\ strip r = r) recipients
  /\ parse_recipients (Some (to_header recipients)) = recipients.
Proof.
  intros recipients.
  assert (Ha : Forall address recipients).
  { apply Forall_forall. intros r. apply parse_recipients_address. }
  split.
  - eapply Forall_impl; [exact Ha|]. intros r (Hne & Hc & Hs).
    split; [exact Hne|]. split; [exact Hc|by apply strip_stripped_id].
  - destruct recipients as [|r rs] eqn:E; [reflexivity|].
    apply Forall_cons in Ha as [Hr Hrs].
    pose proof (split_header false r rs Hr Hrs) as Hsplit.
    assert (Hh : to_header (r :: rs)
                 = r ++ match rs with
                        | [] => []
                        | _ :: _ => 44%N :: 32%N :: to_header rs
                        end).
    { unfold to_header. destruct rs; [by rewrite app_nil_r|reflexivity]. }
    cbv iota in Hsplit. rewrite <- Hh in Hsplit. unfold parse_recipients at 1.
    destruct (to_header (r :: rs)) as [|c s] eqn:Eh; [|exact Hsplit].
    exfalso. destruct Hr as (Hne & _). rewrite Hh in Eh.
    destruct r; [congruence|discriminate].
Qed.
